(** * Verification of the paper-machine knowledge pipeline

    Shallow embedding of the Python backend of paper-machine:
    - the vector search [search_similar_chunks_by_objects]
      (backend/src/database/utils.py and backend/src/rag/utils.py, same SQL);
    - the upload and removal handlers of backend/src/routes/storage_router.py
      with the dedup check [validate_upload] of backend/src/minio/dependencies.py;
    - the background job [process_document_embeddings];
    - the orchestrator [create_rag_response] of backend/src/rag/utils.py;
    - [AgentChat._safe_generate_reply], [AgentChat._send_message],
      [AgentChat.process_message] and the rag_agent's reply function of
      backend/agents/agentic_rag.py, with the [MultiDocumentRetrieval]
      methods [_get_tools], [setup_retriever] and [delete_indices];
    - [serve_file] and [temp_list_files] of the storage router;
    - the model cache [ensure_model_is_ready] of backend/src/database/utils.py
      with [download_model_from_minio] and [upload_model_to_minio]. *)

From Stdlib Require Import QArith Sorting.Permutation Sorting.Sorted.
From stdpp Require Import base gmap strings list pretty.

Open Scope Q_scope.

(* ===================================================================== *)
(** ** The embeddings table and the similarity search                      *)
(* ===================================================================== *)

(** A row of the [embeddings] table: [INSERT INTO embeddings (object_key,
    embedding, text)]. Vectors are lists of rationals standing for the
    stored floats. *)
Record Chunk := mkChunk {
  chunk_object_key : string;
  chunk_embedding : list Q;
  chunk_text : string
}.

(** A dict returned by the search: [{"text", "object_key", "similarity"}]. *)
Record SearchRow := mkSearchRow {
  row_text : string;
  row_object_key : string;
  row_similarity : Q
}.

(** Result of awaiting [db.fetch_all]: rows, or an exception raised by the
    database (re-raised by the Python function). *)
Inductive FetchOutcome :=
| Fetched (rows : list SearchRow)
| Raised (msg : string).

Section Search.

(** pgvector's [<=>] operator (cosine distance), computed by the database. *)
Variable cosine_distance : list Q -> list Q -> Q.

(** [1 - (embedding <=> :query_embedding) AS similarity]. *)
Definition similarity (query_embedding : list Q) (c : Chunk) : Q :=
  1 - cosine_distance (chunk_embedding c) query_embedding.

(** [object_key = ANY(:object_keys)]. *)
Definition key_in_any (object_keys : list string) (k : string) : bool :=
  existsb (String.eqb k) object_keys.

(** The WHERE clause:
    [object_key = ANY(:object_keys) AND 1 - (embedding <=> q) > :threshold]. *)
Definition where_clause (query_embedding : list Q) (object_keys : list string)
    (threshold : Q) (c : Chunk) : bool :=
  key_in_any object_keys (chunk_object_key c)
  && negb (Qle_bool (similarity query_embedding c) threshold).

(** [ORDER BY similarity DESC]: [a] may come before [b]. *)
Definition desc_by_similarity (query_embedding : list Q) (a b : Chunk) : Prop :=
  Qle_bool (similarity query_embedding b) (similarity query_embedding a) = true.

(** The projection of a selected row into the returned dict. *)
Definition to_row (query_embedding : list Q) (c : Chunk) : SearchRow :=
  mkSearchRow (chunk_text c) (chunk_object_key c) (similarity query_embedding c).

(** [search_similar_chunks_by_objects db query_embedding object_keys limit
    similarity_threshold]: the outcomes of the SQL query. PostgreSQL's order
    among rows of equal similarity is unspecified, so the sorted order is any
    permutation of the selected rows sorted by descending similarity; a
    negative [LIMIT] is refused by PostgreSQL and the error re-raised. *)
Inductive search_similar_chunks_by_objects (embeddings : list Chunk)
    (query_embedding : list Q) (object_keys : list string) (limit : Z)
    (similarity_threshold : Q) : FetchOutcome -> Prop :=
| search_negative_limit :
    (limit < 0)%Z ->
    search_similar_chunks_by_objects embeddings query_embedding object_keys
      limit similarity_threshold (Raised "LIMIT must not be negative")
| search_rows (ordered : list Chunk) :
    (0 <= limit)%Z ->
    Permutation
      (List.filter (where_clause query_embedding object_keys similarity_threshold)
         embeddings)
      ordered ->
    Sorted (desc_by_similarity query_embedding) ordered ->
    search_similar_chunks_by_objects embeddings query_embedding object_keys
      limit similarity_threshold
      (Fetched (map (to_row query_embedding)
                  (firstn (Z.to_nat limit) ordered))).

(** One admissible database order: insertion sort by descending similarity. *)
Fixpoint insert_desc (query_embedding : list Q) (c : Chunk) (l : list Chunk)
    : list Chunk :=
  match l with
  | [] => [c]
  | d :: l' =>
      if Qle_bool (similarity query_embedding d) (similarity query_embedding c)
      then c :: d :: l'
      else d :: insert_desc query_embedding c l'
  end.

Fixpoint order_by_similarity_desc (query_embedding : list Q) (l : list Chunk)
    : list Chunk :=
  match l with
  | [] => []
  | c :: l' => insert_desc query_embedding c (order_by_similarity_desc query_embedding l')
  end.

(** The search evaluated with that order. *)
Definition search_exec (embeddings : list Chunk) (query_embedding : list Q)
    (object_keys : list string) (limit : Z) (similarity_threshold : Q)
    : FetchOutcome :=
  if Z.ltb limit 0 then Raised "LIMIT must not be negative"
  else Fetched (map (to_row query_embedding)
         (firstn (Z.to_nat limit)
            (order_by_similarity_desc query_embedding
               (List.filter (where_clause query_embedding object_keys
                                similarity_threshold) embeddings)))).

End Search.

(* ===================================================================== *)
(** ** Content store, metadata tables and the storage routes               *)
(* ===================================================================== *)

(** [FileMetadata(file_name=file.filename, content_type=file.content_type)]. *)
Record FileMetadata := mkFileMetadata {
  file_name : string;
  content_type : option string
}.

(** [FileInfo]: the uploaded bytes and their length are present only for a
    file that is not a duplicate. *)
Record FileInfo := mkFileInfo {
  fi_file : option (list Byte.byte);
  fi_file_length : option nat;
  fi_object_key : string;
  fi_metadata : FileMetadata
}.

Record UploadInfo := mkUploadInfo {
  duplicate : bool;
  fileinfo : FileInfo
}.

(** A row of the [objects] table: [(object_key, content_type, size)]. *)
Record ObjectRow := mkObjectRow {
  obj_content_type : string;
  obj_size : nat
}.

(** A row of the [user_files] table (a FileRecord). *)
Record FileRecord := mkFileRecord {
  fr_user_id : nat;
  fr_object_key : string;
  fr_original_filename : string;
  fr_content_type : string
}.

(** The writes the handlers made, in order (a call that raised wrote
    nothing and is not logged). *)
Inductive StoreCall :=
| PutObject (object_key : string)
| InsertObjectRow (object_key : string)
| AddEmbeddingTask (object_key : string)
| InsertUserFile (user_id : nat) (object_key : string)
| DeleteUserFile (user_id : nat) (object_key : string)
| RemoveObject (object_key : string)
| DeleteObjectRow (object_key : string).

(** The shared state: the MinIO bucket [BUCKET_NAME] (object name to bytes),
    the [objects], [user_files] and [embeddings] tables, the background
    tasks queued by the request, and the log of the writes made. *)
Record World := mkWorld {
  minio : gmap string (list Byte.byte);
  objects : gmap string ObjectRow;
  user_files : list FileRecord;
  embeddings : list Chunk;
  background_tasks : list string;
  calls : list StoreCall
}.

(** [request.app.state]: [embed_on] and [model_path] ([None] or the empty
    string is falsy). *)
Record AppState := mkAppState {
  embed_on : bool;
  model_path : option string
}.

(** The handler's result: the [Response] (message, fileinfo.object_key) or
    an [HTTPException] (status code, detail). *)
Inductive HttpResult :=
| HttpOk (message : string) (object_key : string)
| HttpError (status_code : nat) (detail : string).

Definition set_minio (m : gmap string (list Byte.byte)) (w : World) : World :=
  mkWorld m (objects w) (user_files w) (embeddings w) (background_tasks w) (calls w).
Definition set_objects (o : gmap string ObjectRow) (w : World) : World :=
  mkWorld (minio w) o (user_files w) (embeddings w) (background_tasks w) (calls w).
Definition set_user_files (u : list FileRecord) (w : World) : World :=
  mkWorld (minio w) (objects w) u (embeddings w) (background_tasks w) (calls w).
Definition set_embeddings (e : list Chunk) (w : World) : World :=
  mkWorld (minio w) (objects w) (user_files w) e (background_tasks w) (calls w).
Definition set_background_tasks (t : list string) (w : World) : World :=
  mkWorld (minio w) (objects w) (user_files w) (embeddings w) t (calls w).
Definition log_call (c : StoreCall) (w : World) : World :=
  mkWorld (minio w) (objects w) (user_files w) (embeddings w) (background_tasks w)
    (calls w ++ [c]).

Definition octet_stream : string := "application/octet-stream".

(** [fileinfo.metadata.content_type or "application/octet-stream"]. *)
Definition content_type_or_default (md : FileMetadata) : string :=
  match content_type md with
  | Some ct => if String.eqb ct EmptyString then octet_stream else ct
  | None => octet_stream
  end.

(** Truthiness of [request.app.state.model_path]. *)
Definition model_path_set (app : AppState) : bool :=
  match model_path app with
  | Some p => negb (String.eqb p EmptyString)
  | None => false
  end.

(** [minio_client.put_object(BUCKET_NAME, object_key, ...)]. *)
Definition put_object (k : string) (data : list Byte.byte) (w : World) : World :=
  log_call (PutObject k) (set_minio (<[k := data]> (minio w)) w).

(** [INSERT INTO objects (object_key, content_type, size) VALUES ...]. *)
Definition insert_object_row (k : string) (r : ObjectRow) (w : World) : World :=
  log_call (InsertObjectRow k) (set_objects (<[k := r]> (objects w)) w).

(** [background_tasks.add_task(process_document_embeddings, ..., object_key)]. *)
Definition add_embedding_task (k : string) (w : World) : World :=
  log_call (AddEmbeddingTask k) (set_background_tasks (background_tasks w ++ [k]) w).

(** [INSERT INTO user_files ... ON CONFLICT (user_id, object_key) DO NOTHING]. *)
Definition insert_user_file (r : FileRecord) (w : World) : World :=
  let w' :=
    if existsb (fun r' => Nat.eqb (fr_user_id r') (fr_user_id r)
                          && String.eqb (fr_object_key r') (fr_object_key r))
               (user_files w)
    then w
    else set_user_files (user_files w ++ [r]) w in
  log_call (InsertUserFile (fr_user_id r) (fr_object_key r)) w'.

(** [DELETE FROM user_files WHERE user_id = :user_id AND object_key = :object_key]. *)
Definition delete_user_file (user_id : nat) (k : string) (w : World) : World :=
  log_call (DeleteUserFile user_id k)
    (set_user_files
       (List.filter (fun r => negb (Nat.eqb (fr_user_id r) user_id
                               && String.eqb (fr_object_key r) k))
          (user_files w)) w).

(** [SELECT count( * ) FROM user_files WHERE object_key = :object_key]. *)
Definition count_user_files (k : string) (w : World) : nat :=
  length (List.filter (fun r => String.eqb (fr_object_key r) k) (user_files w)).

(** [minio_client.remove_object(BUCKET_NAME, object_key)]. *)
Definition remove_object (k : string) (w : World) : World :=
  log_call (RemoveObject k) (set_minio (delete k (minio w)) w).

(** Modelled from the spec: the schema of the [embeddings] table, which is
    not among the sources. The spec says a Chunk is "Deleted when the owning
    Blob is deleted", so [DELETE FROM objects WHERE object_key = :object_key]
    also deletes the [embeddings] rows of that key. *)
Definition delete_object_row (k : string) (w : World) : World :=
  log_call (DeleteObjectRow k)
    (set_embeddings
       (List.filter (fun c => negb (String.eqb (chunk_object_key c) k)) (embeddings w))
       (set_objects (delete k (objects w)) w)).

(** What the calls of one upload do that the program does not decide: MinIO
    and the database can raise for reasons outside it (the network, the
    server, the constraints of a schema that is not among the sources).
    Whether [put_object] raises, whether the INSERT into [objects] raises,
    and the [str(e)] of the INSERT into [user_files] when it raises. *)
Record StoreFaults := mkStoreFaults {
  put_object_raises : bool;
  objects_insert_raises : bool;
  user_files_insert_error : option string
}.

Definition no_faults : StoreFaults := mkStoreFaults false false None.

Section Routes.

(** [hashlib.sha256(file_data).hexdigest()]. *)
Variable sha256_hexdigest : list Byte.byte -> string.

(** [data.read().decode('utf-8')] followed by [create_embeddings]: the
    chunks and their vectors, or [None] when decoding or the model raises. *)
Variable create_embeddings : list Byte.byte -> option (list string * list (list Q)).

(** [validate_upload]: the key is the digest of the bytes alone; the file is
    a duplicate when [minio_client.stat_object(BUCKET_NAME, file_hash)]
    succeeds, i.e. an object of that name is stored. *)
Definition validate_upload (file_data : list Byte.byte) (metadata : FileMetadata)
    (w : World) : UploadInfo :=
  let file_hash := sha256_hexdigest file_data in
  match minio w !! file_hash with
  | Some _ => mkUploadInfo true (mkFileInfo None None file_hash metadata)
  | None =>
      mkUploadInfo false
        (mkFileInfo (Some file_data) (Some (length file_data)) file_hash metadata)
  end.

(** The [if not uploadinfo.duplicate:] block of [upload_document]: the world
    to continue with, or the raised [HTTPException] with the world as left.
    The [try] catches the [HTTPException] of the model path and re-raises
    it; any other exception, [put_object] or the INSERT into [objects]
    raising (or [fileinfo.file] being [None]), becomes 500 "Error uploading
    file to MinIO". A call that raises writes nothing. *)
Definition upload_new_object_in (faults : StoreFaults) (app : AppState) (fi : FileInfo)
    (w : World) : World + (World * HttpResult) :=
  let k := fi_object_key fi in
  match fi_file fi, fi_file_length fi with
  | Some data, Some len =>
      if put_object_raises faults then inr (w, HttpError 500 "Error uploading file to MinIO")
      else
      let w1 := put_object k data w in
      if objects_insert_raises faults then inr (w1, HttpError 500 "Error uploading file to MinIO")
      else
      let w2 := insert_object_row k
                  (mkObjectRow (content_type_or_default (fi_metadata fi)) len) w1 in
      if embed_on app then
        if model_path_set app then inl (add_embedding_task k w2)
        else inr (w2, HttpError 500 "Model path not set in application state")
      else inl w2
  | _, _ => inr (w, HttpError 500 "Error uploading file to MinIO")
  end.

(** [upload_document uploadinfo request background_tasks current_user]; the
    INSERT into [user_files] is in a second [try], whose [except] answers
    500 f"Error uploading file: {str(e)}". *)
Definition upload_document_in (faults : StoreFaults) (app : AppState) (user_id : nat)
    (ui : UploadInfo) (w : World) : World * HttpResult :=
  let fi := fileinfo ui in
  let before_record :=
    if negb (duplicate ui) then upload_new_object_in faults app fi w else inl w in
  match before_record with
  | inr failed => failed
  | inl w3 =>
      match user_files_insert_error faults with
      | Some e => (w3, HttpError 500 ("Error uploading file: " +:+ e))
      | None =>
          (insert_user_file
             (mkFileRecord user_id (fi_object_key fi) (file_name (fi_metadata fi))
                (content_type_or_default (fi_metadata fi))) w3,
           HttpOk "File uploaded successfully" (fi_object_key fi))
      end
  end.

(** The request as FastAPI runs it: the dependency [validate_upload] first,
    then the handler. *)
Definition upload_request_in (faults : StoreFaults) (app : AppState) (user_id : nat)
    (file_data : list Byte.byte) (metadata : FileMetadata) (w : World)
    : UploadInfo * (World * HttpResult) :=
  let ui := validate_upload file_data metadata w in
  (ui, upload_document_in faults app user_id ui w).

(** The same, when every call to MinIO and the database returns. *)
Definition upload_new_object (app : AppState) (fi : FileInfo) (w : World)
    : World + (World * HttpResult) :=
  upload_new_object_in no_faults app fi w.

Definition upload_document (app : AppState) (user_id : nat) (ui : UploadInfo)
    (w : World) : World * HttpResult :=
  upload_document_in no_faults app user_id ui w.

Definition upload_request (app : AppState) (user_id : nat)
    (file_data : list Byte.byte) (metadata : FileMetadata) (w : World)
    : UploadInfo * (World * HttpResult) :=
  upload_request_in no_faults app user_id file_data metadata w.

(** [remove_document object_key current_user]. *)
Definition remove_document (user_id : nat) (object_key : string) (w : World)
    : World * HttpResult :=
  let w1 := delete_user_file user_id object_key w in
  let result := HttpOk "File removed successfully" object_key in
  if Nat.eqb (count_user_files object_key w1) 0
  then (delete_object_row object_key (remove_object object_key w1), result)
  else (w1, result).

(** The exceptions [process_document_embeddings] catches, each re-raised
    as [HTTPException(500, f"Error processing embeddings for {object_key}:
    {str(e)}")]: [get_object] raising when no object has that name, the
    decoding or [create_embeddings] raising, and [db.execute_many]
    refusing the [embedding] argument of an INSERT. *)
Inductive EmbeddingJobError :=
| GetObjectFailed
| EmbeddingStepFailed
| VectorArgumentRefused (embedding : list Q).

(** [save_embeddings_to_vectordb db object_key chunks embeddings]: [values]
    holds one dict [{"object_key", "embedding", "text"}] per pair of
    [zip(chunks, embeddings)], and [db.execute_many] runs the INSERT once
    per dict, in order. The [embedding] of a dict is a Python list bound to
    pgvector's [vector] column; no codec is registered for that type
    (pgvector's [register_vector] is never called), so asyncpg encodes the
    argument with its text codec, which takes a [str] only: the first
    INSERT raises [DataError] before writing a row, and the [except]
    re-raises it. With no pair nothing is run. The result is the embedding
    refused, if any. *)
Definition save_embeddings_to_vectordb (object_key : string) (chunks : list string)
    (embs : list (list Q)) (w : World) : World * option (list Q) :=
  match zip chunks embs with
  | [] => (w, None)
  | (_, embedding) :: _ => (w, Some embedding)
  end.

(** [process_document_embeddings minio_client db bucket_name object_key
    model_path]: the world afterwards, and the exception caught when the
    job ends with an [HTTPException]. *)
Definition process_document_embeddings (object_key : string) (w : World)
    : World * option EmbeddingJobError :=
  match minio w !! object_key with
  | None => (w, Some GetObjectFailed)
  | Some data =>
      match create_embeddings data with
      | None => (w, Some EmbeddingStepFailed)
      | Some (chunks, embs) =>
          match save_embeddings_to_vectordb object_key chunks embs w with
          | (w', None) => (w', None)
          | (w', Some embedding) => (w', Some (VectorArgumentRefused embedding))
          end
      end
  end.

(** The operations on the shared state, one request or background job at a
    time. *)
Inductive step : World -> World -> Prop :=
| step_upload (w : World) faults app user_id file_data metadata :
    step w (fst (snd (upload_request_in faults app user_id file_data metadata w)))
| step_remove (w : World) user_id object_key :
    step w (fst (remove_document user_id object_key w))
| step_background_task (w : World) object_key rest :
    background_tasks w = object_key :: rest ->
    step w (fst (process_document_embeddings object_key
                   (set_background_tasks rest w))).

(** Every Chunk's object_key names a stored Blob. *)
Definition chunks_reference_blobs (w : World) : Prop :=
  Forall (fun c => is_Some (minio w !! chunk_object_key c)) (embeddings w).

End Routes.

(* ===================================================================== *)
(** ** The retrieval-augmented orchestrator [create_rag_response]          *)
(* ===================================================================== *)

(** Outcome of an awaited call: a value, or an [Exception] with its
    [str(e)]. *)
Inductive Outcome (A : Type) :=
| Returns (a : A)
| Throws (msg : string).
Arguments Returns {A} a.
Arguments Throws {A} msg.

(** The model calls made by [create_rag_response]. *)
Inductive ModelKind :=
| DecisionCompletion   (* client.chat.completions.create(..., tools=...) *)
| QueryEmbedding       (* embed_user_query(query, model_path) *)
| FinalCompletion.     (* client.chat.completions.create(...) *)

(** What the orchestrator does, in order. *)
Inductive RagEvent :=
| ModelCall (kind : ModelKind) (raised : bool)
| IndexQuery (object_keys : list string)
| FilenameQuery (object_key : string).

(** A chat message [{"role", "content"}]. *)
Definition Message : Type := string * string.

(** An entry of [sources]: [{"object_key", "file_name", "text"}]. *)
Record Source := mkSource {
  src_object_key : string;
  src_file_name : string;
  src_text : string
}.

(** A log-and-exception monad for the body of the [try] block. *)
Definition RagM (A : Type) : Type := list RagEvent -> list RagEvent * Outcome A.

Definition rag_ret {A} (a : A) : RagM A := fun log => (log, Returns a).
Definition rag_bind {A B} (m : RagM A) (f : A -> RagM B) : RagM B :=
  fun log => match m log with
             | (log', Returns a) => f a log'
             | (log', Throws e) => (log', Throws e)
             end.
Definition rag_raise {A} (msg : string) : RagM A := fun log => (log, Throws msg).
Definition rag_emit (ev : RagEvent) : RagM unit := fun log => (log ++ [ev], Returns tt).

Notation "x <- c ;; k" := (rag_bind c (fun x => k))
  (at level 100, c at next level, right associativity).

(** Perform a model call, recording whether it raised. *)
Definition model_call {A} (kind : ModelKind) (o : Outcome A) : RagM A :=
  match o with
  | Returns a => _ <- rag_emit (ModelCall kind false) ;; rag_ret a
  | Throws e => _ <- rag_emit (ModelCall kind true) ;; rag_raise e
  end.

Fixpoint rag_mapM {A B} (f : A -> RagM B) (l : list A) : RagM (list B) :=
  match l with
  | [] => rag_ret []
  | x :: l' => y <- f x ;; ys <- rag_mapM f l' ;; rag_ret (y :: ys)
  end.

Definition error_marker : string := "Error generating response: ".

Definition newline : string := String (Ascii.ascii_of_nat 10) EmptyString.

Definition join_with (sep : string) (l : list string) : string :=
  match l with
  | [] => EmptyString
  | x :: l' => fold_left (fun acc s => acc +:+ sep +:+ s) l' x
  end.

Section Orchestrator.

Variable cosine_distance : list Q -> list Q -> Q.
Variable SYSTEM_PROMPT : string.
(** The state of the [embeddings] table seen by the search. *)
Variable table : list Chunk.
(** The first completion: [Returns true] when [first_message.tool_calls] is
    non-empty. *)
Variable decision_completion : list Message -> Outcome bool.
Variable embed_user_query : string -> Outcome (list Q).
(** [SELECT original_filename FROM user_files WHERE object_key = ...]. *)
Variable fetch_original_filename : string -> option string.
(** The second completion: [choices[0].message.content], possibly [None]. *)
Variable final_completion : list Message -> Outcome (option string).

(** [retrieve_relevant_chunks] calls [search_similar_chunks_by_objects] with
    its defaults [limit=5] and [similarity_threshold=0.7]. *)
Definition retrieve_relevant_chunks (query_embedding : list Q)
    (object_keys : list string) : RagM (list SearchRow) :=
  _ <- rag_emit (IndexQuery object_keys) ;;
  match search_exec cosine_distance table query_embedding object_keys 5 (7 # 10) with
  | Fetched rows => rag_ret rows
  | Raised e => rag_raise e
  end.

(** [file_name["original_filename"]] raises on a missing row. *)
Definition source_of_chunk (chunk : SearchRow) : RagM Source :=
  _ <- rag_emit (FilenameQuery (row_object_key chunk)) ;;
  match fetch_original_filename (row_object_key chunk) with
  | Some fname => rag_ret (mkSource (row_object_key chunk) fname (row_text chunk))
  | None => rag_raise "'NoneType' object is not subscriptable"
  end.

(** The system message carrying the context block (its instructions
    abbreviated). *)
Definition context_message (context : string) : Message :=
  ("system", "Here is the relevant context:" +:+ newline +:+ context +:+ newline
             +:+ "Use this context to answer the user's query.").

(** The [messages] built before the [try] block. *)
Definition initial_messages (query : string) : list Message :=
  [("system", SYSTEM_PROMPT +:+ newline
              +:+ "You have access to a knowledge base. Before answering, decide if you need to retrieve relevant context.");
   ("user", query)].

(** The body of the [try] block. *)
Definition rag_body (query : string) (object_keys : list string)
    : RagM (string * list Source) :=
  let messages := initial_messages query in
  tool_calls <- model_call DecisionCompletion (decision_completion messages) ;;
  retrieved <-
    (if tool_calls then
       query_embedding <- model_call QueryEmbedding (embed_user_query query) ;;
       chunks <- retrieve_relevant_chunks query_embedding object_keys ;;
       let context := join_with (newline +:+ newline) (map row_text chunks) in
       sources <- rag_mapM source_of_chunk chunks ;;
       rag_ret (sources, messages ++ [context_message context])
     else rag_ret ([], messages)) ;;
  let '(sources, messages') := retrieved in
  result <- model_call FinalCompletion (final_completion messages') ;;
  match result with
  | Some text => rag_ret (text, sources)
  | None => rag_raise "'NoneType' object is not subscriptable"
  end.

(** [create_rag_response db query object_keys model_path]: every [Exception]
    raised in the [try] block becomes [f"Error generating response: {e}", []].
    Returns the answer, the sources and the events performed. *)
Definition create_rag_response (query : string) (object_keys : list string)
    : (string * list Source) * list RagEvent :=
  match rag_body query object_keys [] with
  | (log, Returns r) => (r, log)
  | (log, Throws e) => ((error_marker +:+ e, []), log)
  end.

End Orchestrator.

(* ===================================================================== *)
(** ** The streaming role pipeline: [AgentChat] helpers                    *)
(* ===================================================================== *)

(** An entry of a role's [sources]: [{"file_name", "page_label", "text"}]. *)
Record AgentSource := mkAgentSource {
  as_file_name : string;
  as_page_label : string;
  as_text : string
}.

(** A dict put on [self.message_queue]: [{"sender", "content", "sources"}]. *)
Record Turn := mkTurn {
  turn_sender : string;
  turn_content : string;
  turn_sources : list AgentSource
}.

(** Python text is held as the bytes of its UTF-8 encoding, so a [str] of
    ASCII characters is written as it is; [split(':')], [split('_')] and
    [' '.join] on the bytes are those on the characters, since an ASCII
    byte never occurs inside the encoding of another character. *)

(** The code points of a [str]: the UTF-8 decoding of its bytes. The bytes
    of a Python [str] are always well-formed UTF-8; a stray byte would be
    read as the code point of the same value. *)
Fixpoint utf8_decode (bs : list N) : list N :=
  match bs with
  | [] => []
  | b :: rest =>
      if (b <? 192)%N then b :: utf8_decode rest
      else if (b <? 224)%N then
        match rest with
        | b1 :: rest' =>
            N.lor (N.shiftl (N.land b 31) 6) (N.land b1 63) :: utf8_decode rest'
        | [] => [b]
        end
      else if (b <? 240)%N then
        match rest with
        | b1 :: b2 :: rest' =>
            N.lor (N.shiftl (N.land b 15) 12)
              (N.lor (N.shiftl (N.land b1 63) 6) (N.land b2 63)) :: utf8_decode rest'
        | _ => b :: utf8_decode rest
        end
      else
        match rest with
        | b1 :: b2 :: b3 :: rest' =>
            N.lor (N.shiftl (N.land b 7) 18)
              (N.lor (N.shiftl (N.land b1 63) 12)
                 (N.lor (N.shiftl (N.land b2 63) 6) (N.land b3 63))) :: utf8_decode rest'
        | _ => b :: utf8_decode rest
        end
  end.

(** The UTF-8 encoding of one code point. *)
Definition utf8_encode (c : N) : list N :=
  if (c <? 128)%N then [c]
  else if (c <? 2048)%N then
    [N.lor 192 (N.shiftr c 6); N.lor 128 (N.land c 63)]
  else if (c <? 65536)%N then
    [N.lor 224 (N.shiftr c 12); N.lor 128 (N.land (N.shiftr c 6) 63);
     N.lor 128 (N.land c 63)]
  else
    [N.lor 240 (N.shiftr c 18); N.lor 128 (N.land (N.shiftr c 12) 63);
     N.lor 128 (N.land (N.shiftr c 6) 63); N.lor 128 (N.land c 63)].

Definition code_points (s : string) : list N :=
  utf8_decode (map Ascii.N_of_ascii (String.list_ascii_of_string s)).

Definition of_code_points (cs : list N) : string :=
  String.string_of_list_ascii (map Ascii.ascii_of_N (flat_map utf8_encode cs)).

(** The character database CPython's [str] methods read, for the code
    points beyond ASCII ([_PyUnicode_IsUppercase], [_PyUnicode_IsLowercase],
    [_PyUnicode_IsTitlecase], [_PyUnicode_IsCased],
    [_PyUnicode_IsCaseIgnorable], [_PyUnicode_ToTitleFull],
    [_PyUnicode_ToLowerFull]); it comes with the Unicode version of the
    interpreter. Its ASCII part is written out below. *)
Class UnicodeData := {
  ud_isupper : N -> bool;
  ud_islower : N -> bool;
  ud_istitle : N -> bool;
  ud_iscased : N -> bool;
  ud_iscaseignorable : N -> bool;
  ud_totitle_full : N -> list N;
  ud_tolower_full : N -> list N
}.

Definition is_ascii_upper (c : N) : bool := ((65 <=? c) && (c <=? 90))%N.
Definition is_ascii_lower (c : N) : bool := ((97 <=? c) && (c <=? 122))%N.

Section PyStr.

Context {U : UnicodeData}.

Definition py_isupper (c : N) : bool :=
  if (c <? 128)%N then is_ascii_upper c else ud_isupper c.
Definition py_islower (c : N) : bool :=
  if (c <? 128)%N then is_ascii_lower c else ud_islower c.
Definition py_istitle (c : N) : bool :=
  if (c <? 128)%N then false else ud_istitle c.
Definition py_iscased (c : N) : bool :=
  if (c <? 128)%N then is_ascii_upper c || is_ascii_lower c else ud_iscased c.
(** The ASCII case-ignorable characters: ['\''], ['.'], [':'], ['^'], ['`']. *)
Definition py_iscaseignorable (c : N) : bool :=
  if (c <? 128)%N then existsb (N.eqb c) [39; 46; 58; 94; 96]%N
  else ud_iscaseignorable c.
Definition py_totitle_full (c : N) : list N :=
  if (c <? 128)%N then (if is_ascii_lower c then [c - 32]%N else [c])
  else ud_totitle_full c.
Definition py_tolower_full (c : N) : list N :=
  if (c <? 128)%N then (if is_ascii_upper c then [c + 32]%N else [c])
  else ud_tolower_full c.

(** The loop of [unicode_isupper_impl] over the code points, [cased]
    telling whether an upper-case one was seen. *)
Fixpoint isupper_loop (cased : bool) (cs : list N) : bool :=
  match cs with
  | [] => cased
  | c :: rest =>
      if py_islower c || py_istitle c then false
      else isupper_loop (cased || py_isupper c) rest
  end.

(** Python's [str.isupper]: a one-character string is upper-case when its
    character is; the empty string is not; otherwise no character is
    lower-case or title-case and at least one is upper-case. *)
Definition isupper (s : string) : bool :=
  match code_points s with
  | [] => false
  | [c] => py_isupper c
  | cs => isupper_loop false cs
  end.

(** [handle_capital_sigma]: the lower case of U+03A3 with the code points
    [before] it (nearest first) and [after] it: the final sigma U+03C2
    when, skipping case-ignorable code points, a cased one comes before it
    and none comes after it; U+03C3 otherwise. *)
Definition handle_capital_sigma (before after : list N) : N :=
  let final_sigma :=
    match List.find (fun c => negb (py_iscaseignorable c)) before with
    | Some c => py_iscased c
    | None => false
    end in
  let final_sigma :=
    (final_sigma &&
     match List.find (fun c => negb (py_iscaseignorable c)) after with
     | Some c => negb (py_iscased c)
     | None => true
     end)%bool in
  if final_sigma then 962%N else 963%N.

(** [lower_ucs4]: the full lower case of a code point in its context. *)
Definition lower_ucs4 (before : list N) (c : N) (after : list N) : list N :=
  if (c =? 931)%N then [handle_capital_sigma before after] else py_tolower_full c.

(** The loop of [do_capitalize] over the code points after the first. *)
Fixpoint lower_rest (before : list N) (cs : list N) : list N :=
  match cs with
  | [] => []
  | c :: after => lower_ucs4 before c after ++ lower_rest (c :: before) after
  end.

(** Python's [str.capitalize]: the full title case of the first character,
    then the full lower case of the others; the empty string is returned
    as it is. *)
Definition capitalize (s : string) : string :=
  match code_points s with
  | [] => EmptyString
  | c :: rest => of_code_points (py_totitle_full c ++ lower_rest [c] rest)
  end.

End PyStr.

(** [s.split(sep)] for a one-character separator. *)
Fixpoint split_on (sep : Ascii.ascii) (s : string) : list string :=
  match s with
  | EmptyString => [EmptyString]
  | String c rest =>
      match split_on sep rest with
      | [] => [String c EmptyString]
      | w :: ws => if Ascii.eqb c sep then EmptyString :: w :: ws
                   else String c w :: ws
      end
  end.

Definition colon : Ascii.ascii := Ascii.ascii_of_nat 58.

(** [content.split(':', 1)] when [':' in content]: the text before the first
    colon and the text after it. *)
Fixpoint split_first_colon (s : string) : option (string * string) :=
  match s with
  | EmptyString => None
  | String c rest =>
      if Ascii.eqb c colon then Some (EmptyString, rest)
      else match split_first_colon rest with
           | Some (tag, message) => Some (String c tag, message)
           | None => None
           end
  end.

(** The tag stripping of [_send_message]. *)
Definition strip_tag {U : UnicodeData} (content : string) : string :=
  match split_first_colon content with
  | Some (tag, message) => if isupper tag then message else content
  | None => content
  end.

(** [' '.join(word.capitalize() for word in sender.split('_'))]. *)
Definition display_name {U : UnicodeData} (sender : string) : string :=
  join_with " " (map capitalize (split_on (Ascii.ascii_of_nat 95) sender)).

(** [AgentChat._send_message sender content sources]: [None] stands for an
    unset [self.message_queue], on which nothing is put. *)
Definition _send_message {U : UnicodeData} (message_queue : option (list Turn)) (sender content : string)
    (sources : list AgentSource) : option (list Turn) :=
  let name := display_name sender in
  let content' := strip_tag content in
  match message_queue with
  | Some q => Some (q ++ [mkTurn name content' sources])
  | None => None
  end.

(** What [agent.a_generate_oai_reply(messages)] does within the [timeout]:
    it returns [(flag, response)] ([None] or empty for a falsy response),
    raises, or runs out of time. *)
Inductive GenerationOutcome :=
| Generated (flag : bool) (response : option string)
| GenerationRaised (msg : string)
| GenerationTimedOut.

Definition timeout_reply : string :=
  "ERROR: I took too long to respond. Please try again.".
Definition empty_reply : string :=
  "ERROR: I encountered an error generating a response. Please try again.".

(** [AgentChat._safe_generate_reply agent messages sources]: the returned
    [(flag, response)] and the queue afterwards. *)
Definition _safe_generate_reply {U : UnicodeData} (message_queue : option (list Turn))
    (agent_name : string) (outcome : GenerationOutcome) (sources : list AgentSource)
    : (bool * string) * option (list Turn) :=
  match outcome with
  | Generated flag (Some response) =>
      if String.eqb response EmptyString then ((true, empty_reply), message_queue)
      else ((flag, response), _send_message message_queue agent_name response sources)
  | Generated _ None => ((true, empty_reply), message_queue)
  | GenerationTimedOut => ((true, timeout_reply), message_queue)
  | GenerationRaised e => ((true, "ERROR: " +:+ e), message_queue)
  end.

(** [AgentChat.process_message message]. [has_retriever] is the truthiness
    of [self.knowledge_base._retriever]. [run_chat] stands for the [try]
    body after the question is built: [group_chat_manager.resume] when the
    history is not empty, then [a_initiate_chat] from the question; it
    returns the queue after the turns the roles streamed, and whether it
    raised. *)
Definition no_documents_text : string :=
  "No documents found. Please upload documents first.".
Definition unexpected_error_prefix : string := "An unexpected error occurred: ".

Definition process_message {U : UnicodeData} (has_retriever : bool)
    (run_chat : string -> option (list Turn) -> option (list Turn) * Outcome unit)
    (message_queue : option (list Turn)) (message : string) : option (list Turn) :=
  if negb has_retriever then _send_message message_queue "System" no_documents_text []
  else
    match run_chat ("QUESTION: " +:+ message) message_queue with
    | (queue', Returns _) => queue'
    | (queue', Throws e) =>
        _send_message queue' "System" (unexpected_error_prefix +:+ e) []
    end.

(* ===================================================================== *)
(** ** The rag_agent's reply function                                      *)
(* ===================================================================== *)

(** A retrieved [NodeWithScore]: [node.node_id], [score], [node.text] and
    the node's metadata [page_label] (as its text) and [file_name]. *)
Record NodeWithScore := mkNodeWithScore {
  node_id : string;
  node_score : Q;
  node_page_label : string;
  node_file_name : string;
  node_text : string
}.

(** What [self.knowledge_base.retrieve(query)] does within
    [asyncio.timeout(30)] when a retriever is set. *)
Inductive RetrievalOutcome :=
| Retrieved (nodes : list NodeWithScore)
| RetrievalRaised (msg : string)
| RetrievalTimedOut.

(** [messages[-1][...] = ...]: the last element replaced, in place. *)
Fixpoint update_last {A} (f : A -> A) (l : list A) : list A :=
  match l with
  | [] => []
  | [x] => [f x]
  | x :: l' => x :: update_last f l'
  end.

Definition retrieval_timeout_text : string := "Document retrieval took too long".

Definition dashes : string :=
  String.string_of_list_ascii (repeat (Ascii.ascii_of_nat 45) 40).

Section RagAgent.

(** [f"{node_with_score.score:.4f}"]. *)
Variable format_score : Q -> string.

Context {U : UnicodeData}.

(** The lines the loop adds to [results] for one node. *)
Definition node_block (n : NodeWithScore) : string :=
  "Document: " +:+ node_id n +:+ newline +:+
  "Relevance Score: " +:+ format_score (node_score n) +:+ newline +:+
  "Page: " +:+ node_page_label n +:+ newline +:+
  "Text: " +:+ node_text n +:+ newline +:+
  dashes +:+ newline.

(** [results = "SOURCES:\n"] followed by one block per node. *)
Definition sources_block (nodes : list NodeWithScore) : string :=
  fold_left (fun results n => results +:+ node_block n) nodes ("SOURCES:" +:+ newline).

(** The dict appended to [sources] for a node. *)
Definition node_source (n : NodeWithScore) : AgentSource :=
  mkAgentSource (node_file_name n) (node_page_label n) (node_text n).

(** [query_knowledge_base(query)]: [MultiDocumentRetrieval.retrieve]
    returns [[]] when no retriever is set; a timeout becomes
    [TimeoutError("Document retrieval took too long")]; any other
    exception is re-raised. *)
Definition query_knowledge_base (has_retriever : bool) (retrieval : RetrievalOutcome)
    : Outcome (list NodeWithScore) :=
  if has_retriever then
    match retrieval with
    | Retrieved nodes => Returns nodes
    | RetrievalRaised e => Throws e
    | RetrievalTimedOut => Throws retrieval_timeout_text
    end
  else Returns [].

(** The [reply_func] registered on the [rag_agent]: [None] when
    [messages[-1]] raises [IndexError]; otherwise the returned
    [(flag, response)], the queue, and [messages] after the in-place update
    of its last element. [retrieve] is the retrieval for a query and
    [generate] what [a_generate_oai_reply] does on the messages it is
    given. *)
Definition rag_reply_func (message_queue : option (list Turn)) (messages : list Message)
    (has_retriever : bool) (retrieve : string -> RetrievalOutcome)
    (generate : list Message -> GenerationOutcome)
    : option ((bool * string) * option (list Turn) * list Message) :=
  match last messages with
  | None => None
  | Some (_, last_message) =>
      match query_knowledge_base has_retriever (retrieve last_message) with
      | Throws e => Some ((true, "ERROR: " +:+ e), message_queue, messages)
      | Returns nodes_with_scores =>
          let results := sources_block nodes_with_scores in
          let sources := map node_source nodes_with_scores in
          let messages' :=
            update_last (fun '(role, content) => (role, content +:+ newline +:+ results))
              messages in
          let '(reply, queue') :=
            _safe_generate_reply message_queue "rag_agent" (generate messages') sources in
          Some (reply, queue', messages')
      end
  end.

End RagAgent.

(* ===================================================================== *)
(** ** The document indices: [MultiDocumentRetrieval]                      *)
(* ===================================================================== *)

(** A Python dict with string keys, in insertion order: [d.get(k)]. *)
Fixpoint dict_lookup {V} (k : string) (d : list (string * V)) : option V :=
  match d with
  | [] => None
  | (k', v) :: d' => if String.eqb k' k then Some v else dict_lookup k d'
  end.

(** [k in d]. *)
Definition dict_mem {V} (k : string) (d : list (string * V)) : bool :=
  match dict_lookup k d with Some _ => true | None => false end.

(** [d[k] = v]: a key already present keeps its place. *)
Fixpoint dict_set {V} (k : string) (v : V) (d : list (string * V)) : list (string * V) :=
  match d with
  | [] => [(k, v)]
  | (k', v') :: d' => if String.eqb k' k then (k', v) :: d' else (k', v') :: dict_set k v d'
  end.

(** [del d[k]] for a key present. *)
Definition dict_del {V} (k : string) (d : list (string * V)) : list (string * V) :=
  List.filter (fun '(k', _) => negb (String.eqb k' k)) d.

(** [k not in l] for a list of strings. *)
Definition not_in_list (l : list string) (k : string) : bool :=
  negb (existsb (String.eqb k) l).

Section KnowledgeBase.

(** A [VectorStoreIndex]. *)
Variable Index : Type.

(** The object returned by [index.as_retriever()]: a new object on every
    call, told apart by its creation number. *)
Record Retriever := mkRetriever {
  retriever_index : Index;
  retriever_id : nat
}.

(** The fields of [MultiDocumentRetrieval] the methods below use:
    [_indices], [_retrievers], [_retriever] (the [QueryFusionRetriever]
    over a list of retrievers, or [None]), [_modified], and the number of
    the next object [as_retriever] creates. *)
Record KnowledgeBase := mkKnowledgeBase {
  kb_indices : list (string * Index);
  kb_retrievers : list (string * Retriever);
  kb_retriever : option (list Retriever);
  kb_modified : bool;
  kb_next_object : nat
}.

(** The loop of [_get_tools] over [self._indices.items()]. *)
Fixpoint get_tools_loop (items : list (string * Index)) (retrievers : list (string * Retriever))
    (next : nat) : list Retriever * list (string * Retriever) * nat :=
  match items with
  | [] => ([], retrievers, next)
  | (file, index) :: rest =>
      match dict_lookup file retrievers with
      | Some r =>
          let '(out, retrievers', next') := get_tools_loop rest retrievers next in
          (r :: out, retrievers', next')
      | None =>
          let r := mkRetriever index next in
          let '(out, retrievers', next') :=
            get_tools_loop rest (dict_set file r retrievers) (S next) in
          (r :: out, retrievers', next')
      end
  end.

(** [MultiDocumentRetrieval._get_tools()]. *)
Definition _get_tools (kb : KnowledgeBase) : list Retriever * KnowledgeBase :=
  let '(out, retrievers, next) :=
    get_tools_loop (kb_indices kb) (kb_retrievers kb) (kb_next_object kb) in
  (out, mkKnowledgeBase (kb_indices kb) retrievers (kb_retriever kb) (kb_modified kb) next).

(** [MultiDocumentRetrieval.setup_retriever()]. *)
Definition setup_retriever (kb : KnowledgeBase) : KnowledgeBase :=
  let '(retrievers, kb1) := _get_tools kb in
  match retrievers with
  | [] => mkKnowledgeBase (kb_indices kb1) (kb_retrievers kb1) None
            (kb_modified kb1) (kb_next_object kb1)
  | _ :: _ => mkKnowledgeBase (kb_indices kb1) (kb_retrievers kb1) (Some retrievers)
                (kb_modified kb1) (kb_next_object kb1)
  end.

(** [MultiDocumentRetrieval.delete_indices()] with [uploads =
    os.listdir(self.upload_dir)]; the calls on the index's storage do not
    touch these fields. *)
Definition delete_indices (uploads : list string) (kb : KnowledgeBase) : KnowledgeBase :=
  let files_to_delete := List.filter (not_in_list uploads) (map fst (kb_indices kb)) in
  match files_to_delete with
  | [] => kb
  | _ :: _ =>
      let '(indices, retrievers) :=
        fold_left (fun '(indices, retrievers) file =>
                     (dict_del file indices,
                      if dict_mem file retrievers then dict_del file retrievers
                      else retrievers))
          files_to_delete (kb_indices kb, kb_retrievers kb) in
      mkKnowledgeBase indices retrievers (kb_retriever kb) true (kb_next_object kb)
  end.

(** The truthiness of [self.knowledge_base._retriever]. *)
Definition has_retriever (kb : KnowledgeBase) : bool :=
  match kb_retriever kb with Some _ => true | None => false end.

End KnowledgeBase.

(* ===================================================================== *)
(** ** Serving and listing the stored files                                *)
(* ===================================================================== *)

Definition percent : Ascii.ascii := Ascii.ascii_of_nat 37.

(** Python's ['%' not in s]. *)
Definition percent_free (s : string) : bool :=
  negb (existsb (Ascii.eqb percent) (String.list_ascii_of_string s)).

(** [file_record["content_type"] or "application/octet-stream"]. *)
Definition or_octet_stream (ct : string) : string :=
  if String.eqb ct EmptyString then octet_stream else ct.

(** The answer of [serve_file]: the [StreamingResponse] (the object's
    bytes, its media type and the file name of its [Content-Disposition]
    header), or an [HTTPException]. *)
Inductive ServeResult :=
| Streaming (body : list Byte.byte) (media_type : string) (filename : string)
| ServeError (status_code : nat) (detail : string).

(** An entry of the list returned by [temp_list_files]:
    [{"object_key", "metadata": {"file_name", "content_type", "size"}}]. *)
Record ListedFile := mkListedFile {
  lf_object_key : string;
  lf_file_name : string;
  lf_content_type : string;
  lf_size : nat
}.

Section Serve.

(** The percent-decoding branch of [urllib.parse.unquote], which that
    function enters only for a string containing ['%']. *)
Variable unquote_percent : string -> string.
(** [str(e)] of the [S3Error] that [get_object] raises for a missing
    object. *)
Variable no_such_key_text : string -> string.

(** [urllib.parse.unquote]: a string without ['%'] is returned as it is. *)
Definition unquote (s : string) : string :=
  if percent_free s then s else unquote_percent s.

(** [SELECT original_filename, content_type FROM user_files WHERE user_id =
    :user_id AND object_key = :object_key] read with [fetch_one]. *)
Definition fetch_user_file (user_id : nat) (k : string) (w : World) : option FileRecord :=
  List.find (fun r => Nat.eqb (fr_user_id r) user_id && String.eqb (fr_object_key r) k)
    (user_files w).

(** [serve_file object_key current_user]: [get_object] raises for a missing
    object, which the [except Exception] turns into a 500; the response
    object it returns is truthy, so the [404] branch is not taken. *)
Definition serve_file (user_id : nat) (object_key : string) (w : World) : ServeResult :=
  let object_key := unquote object_key in
  match fetch_user_file user_id object_key w with
  | None => ServeError 403 "You do not have permission to access this file"
  | Some file_record =>
      match minio w !! object_key with
      | None => ServeError 500 ("Error serving file: " +:+ no_such_key_text object_key)
      | Some data =>
          Streaming data (or_octet_stream (fr_content_type file_record))
            (fr_original_filename file_record)
      end
  end.

End Serve.

(** The loop of [temp_list_files] over the fetched [user_files] rows: the
    [objects] row of each is read with [fetch_one]; when there is none,
    [obj.object_key] raises [AttributeError], which nothing catches
    ([None], answered with status 500). *)
Fixpoint list_entries (objs : gmap string ObjectRow) (entries : list FileRecord)
    : option (list ListedFile) :=
  match entries with
  | [] => Some []
  | entry :: rest =>
      match objs !! fr_object_key entry with
      | None => None
      | Some obj =>
          match list_entries objs rest with
          | Some files =>
              Some (mkListedFile (fr_object_key entry) (fr_original_filename entry)
                      (obj_content_type obj) (obj_size obj) :: files)
          | None => None
          end
      end
  end.

(** [temp_list_files current_user]: [SELECT * FROM user_files WHERE user_id
    = :user_id] has no [ORDER BY], so its rows come in any order. *)
Inductive temp_list_files (user_id : nat) (w : World) : option (list ListedFile) -> Prop :=
| temp_list_files_rows (rows : list FileRecord) :
    Permutation (List.filter (fun r => Nat.eqb (fr_user_id r) user_id) (user_files w)) rows ->
    temp_list_files user_id w (list_entries (objects w) rows).

(* ===================================================================== *)
(** ** The embedding model cache: [ensure_model_is_ready]                  *)
(* ===================================================================== *)

Definition slash : Ascii.ascii := Ascii.ascii_of_nat 47.

Definition starts_with_slash (s : string) : bool :=
  match s with
  | String c _ => Ascii.eqb c slash
  | EmptyString => false
  end.

Definition ends_with_slash (s : string) : bool :=
  match rev (String.list_ascii_of_string s) with
  | c :: _ => Ascii.eqb c slash
  | [] => false
  end.

(** [os.path.join(a, *p)] (posixpath). *)
Definition path_join (a : string) (p : list string) : string :=
  fold_left (fun path b =>
      if starts_with_slash b then b
      else if (String.eqb path EmptyString || ends_with_slash path)%bool then path +:+ b
      else path +:+ String slash b) p a.

(** [f'models--{user_name}--{model_name}']. *)
Definition model_path_name (user_name model_name : string) : string :=
  "models--" +:+ user_name +:+ "--" +:+ model_name.

(** [MODELS_BUCKET] of backend/src/minio/config.py. *)
Definition MODELS_BUCKET : string := "hf-models".

(** The calls made on MinIO and Hugging Face, in order. *)
Inductive ModelStoreEvent :=
| ListObjects (bucket prefix : string)
| FGetObject (bucket object_name file_path : string)
| SnapshotDownload (repo_id revision : string)
| UploadLocalDirectory (local_path bucket minio_path : string).

(** The outcome of [ensure_model_is_ready]: the local model path, or the
    [HTTPException] raised. *)
Inductive PrepareResult :=
| Prepared (path : string)
| PrepareFailed (status_code : nat) (detail : string).

Definition list_index_error : string := "list index out of range".

Section ModelCache.

(** [os.path.join(tempfile.gettempdir(), 'hf-models')]. *)
Variable MODEL_CACHE_DIR : string.
(** [os.path.exists(p) and any(os.scandir(p))], or the raised error. *)
Variable local_dir_nonempty : string -> Outcome bool.
(** [os.makedirs(p, exist_ok=True)]. *)
Variable makedirs : string -> Outcome unit.
(** [list(minio_client.list_objects(bucket, prefix=prefix, recursive=True))]:
    the object names, or the raised error. *)
Variable list_objects : string -> string -> Outcome (list string).
(** [os.makedirs(os.path.dirname(file_path), exist_ok=True)] then
    [minio_client.fget_object(bucket, object_name, file_path)]. *)
Variable fget_object : string -> string -> string -> Outcome unit.
(** [snapshot_download(repo_id=..., revision=..., cache_dir=MODEL_CACHE_DIR)]. *)
Variable snapshot_download : string -> string -> Outcome unit.
(** [upload_local_directory_to_minio(minio_client, local_path, bucket,
    minio_path)], which walks the local file tree. *)
Variable upload_local_directory : string -> string -> string -> Outcome unit.
(** The message of the [ValueError] raised when unpacking [n] values into
    two names. *)
Variable unpack_error : nat -> string.

(** The loop of [download_model_from_minio] over the listed objects. *)
Fixpoint fget_objects (bucket_name : string) (names : list string)
    : list ModelStoreEvent * Outcome unit :=
  match names with
  | [] => ([], Returns tt)
  | name :: rest =>
      let file_path := path_join MODEL_CACHE_DIR [name] in
      match fget_object bucket_name name file_path with
      | Throws e => ([FGetObject bucket_name name file_path], Throws e)
      | Returns _ =>
          let '(log, r) := fget_objects bucket_name rest in
          (FGetObject bucket_name name file_path :: log, r)
      end
  end.

(** [download_model_from_minio(minio_client, bucket_name, full_model_name,
    revision)]: [tmp[1]] raises [IndexError] when the name has no ['/']. *)
Definition download_model_from_minio (bucket_name full_model_name revision : string)
    : list ModelStoreEvent * Outcome string :=
  match split_on slash full_model_name with
  | user_name :: model_name :: _ =>
      let mpn := model_path_name user_name model_name in
      let full_model_local_path := path_join MODEL_CACHE_DIR [mpn; "snapshots"; revision] in
      let full_model_object_path := mpn +:+ "/snapshots/" +:+ revision in
      match makedirs full_model_local_path with
      | Throws e => ([], Throws e)
      | Returns _ =>
          match list_objects bucket_name full_model_object_path with
          | Throws e => ([ListObjects bucket_name full_model_object_path], Throws e)
          | Returns names =>
              let '(log, r) := fget_objects bucket_name names in
              (ListObjects bucket_name full_model_object_path :: log,
               match r with
               | Returns _ => Returns full_model_local_path
               | Throws e => Throws e
               end)
          end
      end
  | _ => ([], Throws list_index_error)
  end.

(** [upload_model_to_minio(minio_client, bucket_name, full_model_name,
    revision)]. *)
Definition upload_model_to_minio (bucket_name full_model_name revision : string)
    : list ModelStoreEvent * Outcome unit :=
  match split_on slash full_model_name with
  | user_name :: model_name :: _ =>
      let mpn := model_path_name user_name model_name in
      let full_model_local_path := path_join MODEL_CACHE_DIR [mpn; "snapshots"; revision] in
      let full_model_object_path := mpn +:+ "/snapshots/" +:+ revision in
      match snapshot_download full_model_name revision with
      | Throws e => ([SnapshotDownload full_model_name revision], Throws e)
      | Returns _ =>
          ([SnapshotDownload full_model_name revision;
            UploadLocalDirectory full_model_local_path bucket_name full_model_object_path],
           upload_local_directory full_model_local_path bucket_name full_model_object_path)
      end
  | _ => ([], Throws list_index_error)
  end.

Definition prepare_failed (log : list ModelStoreEvent) (e : string)
    : list ModelStoreEvent * PrepareResult :=
  (log, PrepareFailed 500 ("Failed to prepare model: " +:+ e)).

(** [ensure_model_is_ready(minio_client, full_model_name, revision)]: every
    exception of the [try] block becomes a 500. The MinIO branch calls
    [download_model_from_minio(minio_client, full_model_name, revision,
    full_model_local_path)], whose positional arguments fill the
    parameters [bucket_name], [full_model_name] and [revision]. *)
Definition ensure_model_is_ready (full_model_name revision : string)
    : list ModelStoreEvent * PrepareResult :=
  match split_on slash full_model_name with
  | [user_name; model_name] =>
      let mpn := model_path_name user_name model_name in
      let full_model_local_path := path_join MODEL_CACHE_DIR [mpn; "snapshots"; revision] in
      match local_dir_nonempty full_model_local_path with
      | Throws e => prepare_failed [] e
      | Returns true => ([], Prepared full_model_local_path)
      | Returns false =>
          let full_model_object_path := mpn +:+ "/snapshots/" +:+ revision in
          let listed := ListObjects MODELS_BUCKET full_model_object_path in
          match list_objects MODELS_BUCKET full_model_object_path with
          | Throws e => prepare_failed [listed] e
          | Returns (_ :: _) =>
              let '(log, r) :=
                download_model_from_minio full_model_name revision full_model_local_path in
              match r with
              | Returns p => (listed :: log, Prepared p)
              | Throws e => prepare_failed (listed :: log) e
              end
          | Returns [] =>
              let '(log, r) := upload_model_to_minio MODELS_BUCKET full_model_name revision in
              match r with
              | Returns _ => (listed :: log, Prepared full_model_local_path)
              | Throws e => prepare_failed (listed :: log) e
              end
          end
      end
  | parts => prepare_failed [] (unpack_error (length parts))
  end.

End ModelCache.

(* ===================================================================== *)
(** ** Concrete instances used by the examples                             *)
(* ===================================================================== *)

Fixpoint dot (u v : list Q) : Q :=
  match u, v with
  | x :: u', y :: v' => x * y + dot u' v'
  | _, _ => 0
  end.

(** pgvector's cosine distance on vectors of norm 1. *)
Definition unit_cosine_distance (u v : list Q) : Q := 1 - dot u v.

(** The character database of CPython on the Latin-1 code points 128 to
    255 (the upper-case letters U+00C0 to U+00DE but U+00D7, the lower-case
    ones U+00AA, U+00B5, U+00BA and U+00DF to U+00FF but U+00F7, whose
    title case is one code point down by 32 save for U+00B5, U+00DF and
    U+00FF), with no cased code point beyond; the examples write
    Latin-1 text only. *)
Definition latin1_upper (c : N) : bool :=
  ((192 <=? c) && (c <=? 222) && negb (c =? 215))%N.
Definition latin1_lower (c : N) : bool :=
  (existsb (N.eqb c) [170; 181; 186] || ((223 <=? c) && (c <=? 255) && negb (c =? 247)))%N.

Definition latin1_unicode_data : UnicodeData := {|
  ud_isupper := latin1_upper;
  ud_islower := latin1_lower;
  ud_istitle := fun _ => false;
  ud_iscased := fun c => latin1_upper c || latin1_lower c;
  ud_iscaseignorable := fun c => existsb (N.eqb c) [168; 173; 175; 180; 183; 184]%N;
  ud_totitle_full := fun c =>
    if (c =? 181)%N then [924]%N
    else if (c =? 223)%N then [83; 115]%N
    else if (c =? 255)%N then [376]%N
    else if latin1_lower c && (224 <=? c)%N then [c - 32]%N
    else [c];
  ud_tolower_full := fun c => if latin1_upper c then [c + 32]%N else [c]
|}.

(** The tag ["\u00C0\u00C9"] of the examples: two upper-case Latin-1 letters. *)
Definition latin1_caps_tag : string := of_code_points [192; 201]%N.

(** Python's [':' in s]. *)
Definition colon_free (s : string) : bool :=
  negb (existsb (Ascii.eqb colon) (String.list_ascii_of_string s)).

(* ===================================================================== *)
(** ** Search: authorization and ranking                                   *)
(* ===================================================================== *)

Lemma key_in_any_In (keys : list string) (k : string) :
  key_in_any keys k = true <-> In k keys.
Proof.
  unfold key_in_any. rewrite existsb_exists. split.
  - intros (k' & Hin & Heq). apply String.eqb_eq in Heq. subst. exact Hin.
  - intros Hin. exists k. split; [exact Hin | apply String.eqb_refl].
Qed.

Lemma firstn_incl_chunk (n : nat) (l : list Chunk) (c : Chunk) :
  In c (firstn n l) -> In c l.
Proof.
  revert l. induction n as [|n IH]; intros [|d l]; simpl; try tauto.
  intros [->|H]; [left; reflexivity | right; apply IH, H].
Qed.

Lemma search_rows_selected cd table q keys limit thr rows :
  search_similar_chunks_by_objects cd table q keys limit thr (Fetched rows) ->
  exists chosen, rows = map (to_row cd q) chosen /\
    Forall (fun c => In c table /\ where_clause cd q keys thr c = true) chosen.
Proof.
  intros Hs. inversion Hs as [|ordered Hlim Hperm Hsorted]; subst.
  eexists; split; [reflexivity|].
  apply List.Forall_forall. intros c Hc.
  apply firstn_incl_chunk in Hc.
  apply (Permutation_in c (Permutation_sym Hperm)) in Hc.
  apply filter_In in Hc. exact Hc.
Qed.

(** C1: every row returned by [search_similar_chunks_by_objects] has an
    [object_key] that belongs to the supplied [object_keys], whatever the
    query vector and the contents of the [embeddings] table. *)
Theorem search_returns_only_allowed_keys cd table query_embedding object_keys
    limit threshold rows :
  search_similar_chunks_by_objects cd table query_embedding object_keys
    limit threshold (Fetched rows) ->
  Forall (fun r => In (row_object_key r) object_keys) rows.
Proof.
  intros Hs. destruct (search_rows_selected _ _ _ _ _ _ _ Hs) as (chosen & -> & Hall).
  apply List.Forall_map. eapply List.Forall_impl; [|exact Hall].
  intros c [_ Hw]. simpl. unfold where_clause in Hw.
  apply andb_prop in Hw as [Hk _]. apply key_in_any_In, Hk.
Qed.

Definition c1_table : list Chunk :=
  [mkChunk "k1" [1; 0] "in scope"; mkChunk "k2" [1; 0] "out of scope"].

Lemma search_returns_only_allowed_keys_witness :
  search_similar_chunks_by_objects unit_cosine_distance c1_table [1; 0] ["k1"] 5 (7 # 10)
    (Fetched [mkSearchRow "in scope" "k1" (1 - (1 - (1 * 1 + (0 * 0 + 0))))]) /\
  Forall (fun r => In (row_object_key r) ["k1"])
    [mkSearchRow "in scope" "k1" (1 - (1 - (1 * 1 + (0 * 0 + 0))))].
Proof.
  assert (Hs : search_similar_chunks_by_objects unit_cosine_distance c1_table [1; 0]
                 ["k1"] 5 (7 # 10)
                 (Fetched [mkSearchRow "in scope" "k1" (1 - (1 - (1 * 1 + (0 * 0 + 0))))])).
  { exact (search_rows unit_cosine_distance c1_table [1; 0] ["k1"] 5 (7 # 10)
             [mkChunk "k1" [1; 0] "in scope"]
             ltac:(lia) (Permutation_refl _) ltac:(repeat constructor)). }
  split; [exact Hs | exact (search_returns_only_allowed_keys _ _ _ _ _ _ _ Hs)].
Defined.

(** The C2 failing input: one allowed row whose similarity equals the
    threshold [0] (orthogonal unit vectors). *)
Definition c2_table : list Chunk := [mkChunk "k" [0; 1] "orthogonal"].

(** C2 (evaluation at the failing input): the [> :threshold] comparison
    drops the allowed row whose similarity equals the threshold, so the only
    outcome is the empty result, although the row is not strictly below the
    threshold. *)
Theorem search_drops_row_at_threshold out :
  search_similar_chunks_by_objects unit_cosine_distance c2_table [1; 0] ["k"] 5 0 out ->
  out = Fetched [] /\
  similarity unit_cosine_distance [1; 0] (mkChunk "k" [0; 1] "orthogonal") == 0.
Proof.
  intros Hs. split; [|vm_compute; reflexivity].
  inversion Hs as [Hneg|ordered Hlim Hperm Hsorted]; [lia|].
  assert (Hf : List.filter (where_clause unit_cosine_distance [1; 0] ["k"] 0)
                 c2_table = []) by (vm_compute; reflexivity).
  rewrite Hf in Hperm. apply Permutation_nil in Hperm. subst. reflexivity.
Qed.

Lemma search_drops_row_at_threshold_witness :
  search_similar_chunks_by_objects unit_cosine_distance c2_table [1; 0] ["k"] 5 0
    (Fetched []) /\
  (Fetched [] = Fetched [] /\
   similarity unit_cosine_distance [1; 0] (mkChunk "k" [0; 1] "orthogonal") == 0).
Proof.
  assert (Hs : search_similar_chunks_by_objects unit_cosine_distance c2_table [1; 0]
                 ["k"] 5 0 (Fetched [])).
  { exact (search_rows unit_cosine_distance c2_table [1; 0] ["k"] 5 0 []
             ltac:(lia) ltac:(vm_compute; constructor) ltac:(constructor)). }
  split; [exact Hs | exact (search_drops_row_at_threshold (Fetched []) Hs)].
Defined.

(* ===================================================================== *)
(** ** Streaming turns                                                     *)
(* ===================================================================== *)

Lemma split_first_colon_app (tag message : string) :
  colon_free tag = true ->
  split_first_colon (tag +:+ String colon message) = Some (tag, message).
Proof.
  induction tag as [|c tag IH]; intros Hfree; simpl.
  - reflexivity.
  - unfold colon_free in Hfree. cbn [String.list_ascii_of_string existsb] in Hfree.
    apply negb_true_iff, orb_false_iff in Hfree as [Hc Hrest].
    rewrite Ascii.eqb_sym in Hc. rewrite Hc. rewrite IH; [reflexivity|].
    unfold colon_free. rewrite Hrest. reflexivity.
Qed.

Lemma split_first_colon_free (s : string) :
  colon_free s = true -> split_first_colon s = None.
Proof.
  induction s as [|c s IH]; intros Hfree; simpl; [reflexivity|].
  unfold colon_free in Hfree. cbn [String.list_ascii_of_string existsb] in Hfree.
  apply negb_true_iff, orb_false_iff in Hfree as [Hc Hrest].
  rewrite Ascii.eqb_sym in Hc. rewrite Hc, IH; [reflexivity|].
  unfold colon_free. rewrite Hrest. reflexivity.
Qed.

(** C9 (counterexample): a role whose generation call times out puts no
    turn at all on the session's output channel; it only returns the
    ["ERROR: ..."] reply to the group chat. *)
Lemma safe_generate_reply_timeout_emits_no_turn :
  _safe_generate_reply (U := latin1_unicode_data) (Some []) "rag_agent" GenerationTimedOut [] =
    ((true, timeout_reply), Some []).
Proof. reflexivity. Qed.

(** C9 (amended): when the generation call of a role times out, or raises,
    [_safe_generate_reply] leaves the output channel as it was and returns
    [(True, "ERROR: ...")] to the group chat. *)
Theorem safe_generate_reply_failure_leaves_queue {U : UnicodeData} queue agent_name sources e :
  _safe_generate_reply queue agent_name GenerationTimedOut sources =
    ((true, timeout_reply), queue) /\
  _safe_generate_reply queue agent_name (GenerationRaised e) sources =
    ((true, "ERROR: " +:+ e), queue).
Proof. split; reflexivity. Qed.

(** C10 (counterexample): only the first tag is removed, so
    ["ERROR:ERROR: x"] is streamed as ["ERROR: x"], whose text before the
    first colon is still an all-caps tag. *)
Lemma send_message_keeps_second_tag :
  _send_message (U := latin1_unicode_data) (Some []) "enhancement_agent" "ERROR:ERROR: x" [] =
    Some [mkTurn "Enhancement Agent" "ERROR: x" []] /\
  split_first_colon "ERROR: x" = Some ("ERROR", " x") /\
  isupper (U := latin1_unicode_data) "ERROR" = true.
Proof. vm_compute. repeat split. Qed.

(** C10 (amended): for a turn put on the queue, when the content is [tag],
    a colon and [message] with no colon in [tag], the enqueued content is
    [message] if [tag] is upper-case in the sense of [str.isupper] (for
    the interpreter's character database [U]) and the whole content
    otherwise; a content without a colon is enqueued as it is. Only this
    one prefix is removed. *)
Theorem send_message_strips_first_tag {U : UnicodeData} (q : list Turn) sender tag message content sources :
  colon_free tag = true ->
  _send_message (Some q) sender (tag +:+ String colon message) sources =
    Some (q ++ [mkTurn (display_name sender)
                  (if isupper tag then message else tag +:+ String colon message)
                  sources]) /\
  (colon_free content = true ->
   _send_message (Some q) sender content sources =
     Some (q ++ [mkTurn (display_name sender) content sources])).
Proof.
  intros Hfree. split.
  - unfold _send_message, strip_tag. rewrite split_first_colon_app by exact Hfree.
    reflexivity.
  - intros Hc. unfold _send_message, strip_tag. rewrite split_first_colon_free by exact Hc.
    reflexivity.
Qed.

Lemma send_message_strips_first_tag_witness :
  colon_free latin1_caps_tag = true /\
  isupper (U := latin1_unicode_data) latin1_caps_tag = true /\
  _send_message (U := latin1_unicode_data) (Some []) "query_analyzer_agent"
    (latin1_caps_tag +:+ String colon " which model?") [] =
    Some ([] ++ [mkTurn (display_name (U := latin1_unicode_data) "query_analyzer_agent")
                   (if isupper (U := latin1_unicode_data) latin1_caps_tag then " which model?"
                    else latin1_caps_tag +:+ String colon " which model?") []]) /\
  (colon_free "hello" = true ->
   _send_message (U := latin1_unicode_data) (Some []) "query_analyzer_agent" "hello" [] =
     Some ([] ++ [mkTurn (display_name (U := latin1_unicode_data) "query_analyzer_agent")
                    "hello" []])).
Proof.
  assert (H : colon_free latin1_caps_tag = true) by (vm_compute; reflexivity).
  split; [exact H|]. split; [vm_compute; reflexivity|].
  exact (send_message_strips_first_tag (U := latin1_unicode_data) [] "query_analyzer_agent"
           latin1_caps_tag " which model?" "hello" [] H).
Defined.

(* ===================================================================== *)
(** ** Storage routes                                                      *)
(* ===================================================================== *)

Create HintDb world_ops.
#[export] Hint Unfold set_minio set_objects set_user_files set_embeddings
  set_background_tasks log_call put_object insert_object_row add_embedding_task
  delete_user_file remove_object delete_object_row : world_ops.

Ltac world_simpl := autounfold with world_ops in *; cbn [minio objects user_files
  embeddings background_tasks calls fst snd] in *.

Lemma insert_user_file_frame (r : FileRecord) (w : World) :
  minio (insert_user_file r w) = minio w /\
  objects (insert_user_file r w) = objects w /\
  embeddings (insert_user_file r w) = embeddings w /\
  background_tasks (insert_user_file r w) = background_tasks w /\
  calls (insert_user_file r w) = calls w ++ [InsertUserFile (fr_user_id r) (fr_object_key r)].
Proof.
  unfold insert_user_file. destruct (existsb _ _); world_simpl; repeat split.
Qed.

Lemma insert_user_file_minio (r : FileRecord) (w : World) :
  minio (insert_user_file r w) = minio w.
Proof. apply insert_user_file_frame. Qed.

Lemma insert_user_file_embeddings (r : FileRecord) (w : World) :
  embeddings (insert_user_file r w) = embeddings w.
Proof. apply insert_user_file_frame. Qed.

(** The [user_files] INSERT of [upload_document]: its write and its answer. *)
Definition record_result (faults : StoreFaults) (user_id : nat) (k : string)
    : list StoreCall * HttpResult :=
  match user_files_insert_error faults with
  | None => ([InsertUserFile user_id k], HttpOk "File uploaded successfully" k)
  | Some e => ([], HttpError 500 ("Error uploading file: " +:+ e))
  end.

Lemma upload_duplicate_frame_in faults app user_id ui w :
  duplicate ui = true ->
  let '(w', r) := upload_document_in faults app user_id ui w in
  minio w' = minio w /\ objects w' = objects w /\
  background_tasks w' = background_tasks w /\ embeddings w' = embeddings w /\
  calls w' = calls w ++ fst (record_result faults user_id (fi_object_key (fileinfo ui))) /\
  r = snd (record_result faults user_id (fi_object_key (fileinfo ui))).
Proof.
  intros Hdup. unfold upload_document_in, record_result. rewrite Hdup. cbn [negb].
  destruct (user_files_insert_error faults) as [e|]; cbn [fst snd].
  - rewrite app_nil_r. repeat split.
  - destruct (insert_user_file_frame
                (mkFileRecord user_id (fi_object_key (fileinfo ui))
                   (file_name (fi_metadata (fileinfo ui)))
                   (content_type_or_default (fi_metadata (fileinfo ui)))) w)
      as (H1 & H2 & H3 & H4 & H5).
    repeat split; assumption.
Qed.

Lemma upload_duplicate_frame app user_id ui w :
  duplicate ui = true ->
  let '(w', r) := upload_document app user_id ui w in
  minio w' = minio w /\ objects w' = objects w /\
  background_tasks w' = background_tasks w /\ embeddings w' = embeddings w /\
  calls w' = calls w ++ [InsertUserFile user_id (fi_object_key (fileinfo ui))] /\
  r = HttpOk "File uploaded successfully" (fi_object_key (fileinfo ui)).
Proof. exact (upload_duplicate_frame_in no_faults app user_id ui w). Qed.

(** C7: an upload whose [duplicate] flag is set performs no [put_object], no
    insert into [objects] and queues no background task: the only write is
    the [user_files] insert, and the handler answers with the object key. *)
Theorem upload_duplicate_only_records_file app user_id ui w :
  duplicate ui = true ->
  let '(w', r) := upload_document app user_id ui w in
  minio w' = minio w /\ objects w' = objects w /\
  background_tasks w' = background_tasks w /\ embeddings w' = embeddings w /\
  calls w' = calls w ++ [InsertUserFile user_id (fi_object_key (fileinfo ui))] /\
  r = HttpOk "File uploaded successfully" (fi_object_key (fileinfo ui)).
Proof. apply upload_duplicate_frame. Qed.

Definition empty_world : World := mkWorld ∅ ∅ [] [] [] [].

Definition c7_upload : UploadInfo :=
  mkUploadInfo true (mkFileInfo None None "9f86d081"
                       (mkFileMetadata "notes.txt" (Some "text/plain"))).

Lemma upload_duplicate_only_records_file_witness :
  duplicate c7_upload = true /\
  (let '(w', r) := upload_document (mkAppState true (Some "/models/e5")) 7 c7_upload
                     empty_world in
   minio w' = minio empty_world /\ objects w' = objects empty_world /\
   background_tasks w' = background_tasks empty_world /\
   embeddings w' = embeddings empty_world /\
   calls w' = calls empty_world ++ [InsertUserFile 7 (fi_object_key (fileinfo c7_upload))] /\
   r = HttpOk "File uploaded successfully" (fi_object_key (fileinfo c7_upload))).
Proof.
  split; [reflexivity|].
  exact (upload_duplicate_only_records_file (mkAppState true (Some "/models/e5")) 7
           c7_upload empty_world eq_refl).
Defined.

(** C6: [remove_document] deletes exactly the caller's FileRecords for the
    key; when no FileRecord of the key is left (the [count] is 0) the object
    and its [objects] row are gone, otherwise the object and the [objects]
    table are left as they were. *)
Theorem remove_document_refcount user_id object_key w :
  let '(w', r) := remove_document user_id object_key w in
  user_files w' =
    List.filter (fun rec => negb (Nat.eqb (fr_user_id rec) user_id
                                  && String.eqb (fr_object_key rec) object_key))
      (user_files w) /\
  (count_user_files object_key w' = 0%nat ->
   minio w' !! object_key = None /\ objects w' !! object_key = None) /\
  (count_user_files object_key w' <> 0%nat ->
   minio w' = minio w /\ objects w' = objects w) /\
  r = HttpOk "File removed successfully" object_key.
Proof.
  unfold remove_document.
  destruct (Nat.eqb_spec (count_user_files object_key (delete_user_file user_id object_key w)) 0%nat)
    as [H0|H0].
  - unfold count_user_files in *. world_simpl.
    split; [reflexivity|]. split; [|split; [|reflexivity]].
    + intros _. split; apply lookup_delete_eq.
    + intros Hne. exfalso. apply Hne. exact H0.
  - unfold count_user_files in *. world_simpl.
    split; [reflexivity|]. split; [|split; [|reflexivity]].
    + intros Hz. exfalso. apply H0. exact Hz.
    + intros _. split; reflexivity.
Qed.

(** The bucket after [upload_document]: only a new file is put, under its
    key, unless [put_object] raises. *)
Lemma upload_document_in_minio faults app user_id ui w :
  minio (fst (upload_document_in faults app user_id ui w)) =
    if duplicate ui then minio w
    else match fi_file (fileinfo ui), fi_file_length (fileinfo ui) with
         | Some data, Some _ =>
             if put_object_raises faults then minio w
             else <[fi_object_key (fileinfo ui) := data]> (minio w)
         | _, _ => minio w
         end.
Proof.
  unfold upload_document_in, upload_new_object_in.
  destruct (duplicate ui); cbn [negb].
  - destruct (user_files_insert_error faults); [reflexivity|apply insert_user_file_minio].
  - destruct (fi_file (fileinfo ui)) as [data|], (fi_file_length (fileinfo ui)) as [len|];
      try reflexivity.
    destruct (put_object_raises faults); [reflexivity|].
    destruct (objects_insert_raises faults), (embed_on app), (model_path_set app),
      (user_files_insert_error faults); world_simpl;
      rewrite ?insert_user_file_minio; reflexivity.
Qed.

Lemma upload_document_minio app user_id ui w :
  minio (fst (upload_document app user_id ui w)) =
    if duplicate ui then minio w
    else match fi_file (fileinfo ui), fi_file_length (fileinfo ui) with
         | Some data, Some _ => <[fi_object_key (fileinfo ui) := data]> (minio w)
         | _, _ => minio w
         end.
Proof. exact (upload_document_in_minio no_faults app user_id ui w). Qed.

Lemma upload_document_in_embeddings faults app user_id ui w :
  embeddings (fst (upload_document_in faults app user_id ui w)) = embeddings w.
Proof.
  unfold upload_document_in, upload_new_object_in.
  destruct (duplicate ui); cbn [negb].
  - destruct (user_files_insert_error faults); [reflexivity|apply insert_user_file_embeddings].
  - destruct (fi_file (fileinfo ui)) as [data|], (fi_file_length (fileinfo ui)) as [len|];
      try reflexivity.
    destruct (put_object_raises faults), (objects_insert_raises faults), (embed_on app),
      (model_path_set app), (user_files_insert_error faults); world_simpl;
      rewrite ?insert_user_file_embeddings; reflexivity.
Qed.

Lemma upload_document_in_result_key faults app user_id ui w msg k :
  snd (upload_document_in faults app user_id ui w) = HttpOk msg k ->
  k = fi_object_key (fileinfo ui).
Proof.
  unfold upload_document_in, upload_new_object_in.
  destruct (duplicate ui); cbn [negb snd].
  - destruct (user_files_insert_error faults); cbn [snd]; congruence.
  - destruct (fi_file (fileinfo ui)) as [data|], (fi_file_length (fileinfo ui)) as [len|];
      cbn [snd]; try congruence.
    destruct (put_object_raises faults), (objects_insert_raises faults), (embed_on app),
      (model_path_set app), (user_files_insert_error faults); cbn [snd]; congruence.
Qed.

Lemma upload_document_result_key app user_id ui w msg k :
  snd (upload_document app user_id ui w) = HttpOk msg k ->
  k = fi_object_key (fileinfo ui).
Proof. exact (upload_document_in_result_key no_faults app user_id ui w msg k). Qed.

Lemma validate_upload_key H data md w :
  fi_object_key (fileinfo (validate_upload H data md w)) = H data.
Proof. unfold validate_upload. destruct (minio w !! H data); reflexivity. Qed.

(** C3: uploading the same bytes twice (any owners, any file names) gives
    the key [sha256_hexdigest data] both times. Once the first upload has
    reached the bucket ([put_object] did not raise; it may still have
    failed afterwards, or answered [HttpOk]), the second upload is flagged
    [duplicate] and puts nothing in the bucket, inserts no [objects] row
    and queues no task: its only write is the FileRecord, and only if that
    INSERT does not raise (then it answers the same key; otherwise 500
    "Error uploading file: ..."). The two uploads store one object for
    those bytes, under that key, and it holds [data] unless the bucket
    already held other bytes with the same digest; every other object of
    the bucket (the folder placeholders put there at registration among
    them) is left as it was. *)
Theorem upload_same_bytes_twice hash faults1 faults2 app user1 user2 data md1 md2 w :
  put_object_raises faults1 = false ->
  let '(ui1, (w1, r1)) := upload_request_in hash faults1 app user1 data md1 w in
  let '(ui2, (w2, r2)) := upload_request_in hash faults2 app user2 data md2 w1 in
  fi_object_key (fileinfo ui1) = hash data /\
  fi_object_key (fileinfo ui2) = hash data /\
  (forall msg k, r1 = HttpOk msg k -> k = hash data) /\
  duplicate ui2 = true /\
  r2 = snd (record_result faults2 user2 (hash data)) /\
  minio w2 = minio w1 /\ objects w2 = objects w1 /\
  background_tasks w2 = background_tasks w1 /\
  calls w2 = calls w1 ++ fst (record_result faults2 user2 (hash data)) /\
  is_Some (minio w2 !! hash data) /\
  (forall k, k <> hash data -> minio w2 !! k = minio w !! k) /\
  (minio w !! hash data = None \/ minio w !! hash data = Some data ->
   minio w2 !! hash data = Some data).
Proof.
  intros Hput. unfold upload_request_in.
  remember (validate_upload hash data md1 w) as ui1 eqn:Hui1.
  destruct (upload_document_in faults1 app user1 ui1 w) as [w1 r1] eqn:E1.
  remember (validate_upload hash data md2 w1) as ui2 eqn:Hui2.
  destruct (upload_document_in faults2 app user2 ui2 w1) as [w2 r2] eqn:E2.
  pose proof (upload_document_in_minio faults1 app user1 ui1 w) as Hm1.
  rewrite E1, Hput in Hm1. cbn [fst] in Hm1.
  assert (Hother : forall k, k <> hash data -> minio w1 !! k = minio w !! k).
  { intros k Hk. rewrite Hm1. subst ui1. unfold validate_upload.
    destruct (minio w !! hash data); cbn; [reflexivity|].
    rewrite lookup_insert_ne by congruence. reflexivity. }
  assert (Hin1 : is_Some (minio w1 !! hash data) /\
                 (minio w !! hash data = None \/ minio w !! hash data = Some data ->
                  minio w1 !! hash data = Some data)).
  { subst ui1. unfold validate_upload in Hm1.
    destruct (minio w !! hash data) as [v|] eqn:E; cbn in Hm1; rewrite Hm1.
    - rewrite E. split; [eexists; reflexivity|]. intros [Hn|Hs]; congruence.
    - rewrite lookup_insert_eq. split; [eexists; reflexivity|]. intros _. reflexivity. }
  assert (Hdup2 : duplicate ui2 = true).
  { subst ui2. unfold validate_upload. destruct Hin1 as [[v Hv] _]. rewrite Hv.
    reflexivity. }
  assert (Hkey2 : fi_object_key (fileinfo ui2) = hash data)
    by (subst ui2; apply validate_upload_key).
  assert (Hkey1 : fi_object_key (fileinfo ui1) = hash data)
    by (subst ui1; apply validate_upload_key).
  pose proof (upload_duplicate_frame_in faults2 app user2 ui2 w1 Hdup2) as F.
  rewrite E2 in F. destruct F as (F1 & F2 & F3 & _ & F5 & F6).
  rewrite Hkey2 in F5, F6.
  split; [exact Hkey1|]. split; [exact Hkey2|].
  split.
  { intros msg k Hr. rewrite <- Hkey1.
    apply (upload_document_in_result_key faults1 app user1 ui1 w msg k). rewrite E1. exact Hr. }
  split; [exact Hdup2|].
  split; [exact F6|].
  split; [exact F1|]. split; [exact F2|]. split; [exact F3|].
  split; [exact F5|].
  split; [rewrite F1; apply Hin1|].
  split.
  - intros k Hk. rewrite F1. apply Hother, Hk.
  - rewrite F1. apply Hin1.
Qed.

(** A toy digest for the examples: the length of the bytes in decimal. *)
Definition length_digest (data : list Byte.byte) : string := pretty (N.of_nat (length data)).

(** The first upload's INSERT into [objects] raises after the object is
    put; the second upload's INSERT into [user_files] raises. *)
Definition c3_faults1 : StoreFaults := mkStoreFaults false true None.
Definition c3_faults2 : StoreFaults := mkStoreFaults false false (Some "connection lost").

Lemma upload_same_bytes_twice_witness :
  put_object_raises c3_faults1 = false /\
  (let '(ui1, (w1, r1)) := upload_request_in length_digest c3_faults1 (mkAppState false None) 1
                             [Byte.x61; Byte.x62] (mkFileMetadata "a.txt" None) empty_world in
   let '(ui2, (w2, r2)) := upload_request_in length_digest c3_faults2 (mkAppState false None) 2
                             [Byte.x61; Byte.x62] (mkFileMetadata "b.txt" None) w1 in
   fi_object_key (fileinfo ui1) = length_digest [Byte.x61; Byte.x62] /\
   fi_object_key (fileinfo ui2) = length_digest [Byte.x61; Byte.x62] /\
   (forall msg k, r1 = HttpOk msg k -> k = length_digest [Byte.x61; Byte.x62]) /\
   duplicate ui2 = true /\
   r2 = snd (record_result c3_faults2 2 (length_digest [Byte.x61; Byte.x62])) /\
   minio w2 = minio w1 /\ objects w2 = objects w1 /\
   background_tasks w2 = background_tasks w1 /\
   calls w2 = calls w1 ++ fst (record_result c3_faults2 2 (length_digest [Byte.x61; Byte.x62])) /\
   is_Some (minio w2 !! length_digest [Byte.x61; Byte.x62]) /\
   (forall k, k <> length_digest [Byte.x61; Byte.x62] ->
      minio w2 !! k = minio empty_world !! k) /\
   (minio empty_world !! length_digest [Byte.x61; Byte.x62] = None \/
    minio empty_world !! length_digest [Byte.x61; Byte.x62] = Some [Byte.x61; Byte.x62] ->
    minio w2 !! length_digest [Byte.x61; Byte.x62] = Some [Byte.x61; Byte.x62])).
Proof.
  split; [reflexivity|].
  exact (upload_same_bytes_twice length_digest c3_faults1 c3_faults2 (mkAppState false None)
           1 2 [Byte.x61; Byte.x62] (mkFileMetadata "a.txt" None)
           (mkFileMetadata "b.txt" None) empty_world eq_refl).
Defined.

Lemma is_Some_insert_other (m : gmap string (list Byte.byte)) (i j : string) v :
  is_Some (m !! j) -> is_Some (<[i := v]> m !! j).
Proof.
  intros Hj. destruct (decide (i = j)) as [->|Hne].
  - rewrite lookup_insert_eq. eexists; reflexivity.
  - rewrite lookup_insert_ne by exact Hne. exact Hj.
Qed.

Lemma chunks_reference_blobs_grow (w w' : World) :
  embeddings w' = embeddings w ->
  (forall k, is_Some (minio w !! k) -> is_Some (minio w' !! k)) ->
  chunks_reference_blobs w -> chunks_reference_blobs w'.
Proof.
  intros He Hg Hinv. unfold chunks_reference_blobs in *. rewrite He.
  eapply List.Forall_impl; [|exact Hinv]. intros c. apply Hg.
Qed.

Lemma upload_preserves_chunks_reference_blobs hash faults app user_id data md w :
  chunks_reference_blobs w ->
  chunks_reference_blobs (fst (snd (upload_request_in hash faults app user_id data md w))).
Proof.
  apply chunks_reference_blobs_grow.
  - apply upload_document_in_embeddings.
  - intros k Hk. unfold upload_request_in. cbn [fst snd]. rewrite upload_document_in_minio.
    destruct (duplicate (validate_upload hash data md w)); [exact Hk|].
    destruct (fi_file (fileinfo (validate_upload hash data md w))),
      (fi_file_length (fileinfo (validate_upload hash data md w))); try exact Hk.
    destruct (put_object_raises faults); [exact Hk|].
    apply is_Some_insert_other, Hk.
Qed.

Lemma remove_preserves_chunks_reference_blobs user_id object_key w :
  chunks_reference_blobs w ->
  chunks_reference_blobs (fst (remove_document user_id object_key w)).
Proof.
  intros Hinv. unfold remove_document.
  destruct (Nat.eqb _ 0); world_simpl; [|exact Hinv].
  unfold chunks_reference_blobs in *. cbn [minio embeddings] in *.
  apply List.Forall_forall. intros c Hc.
  apply filter_In in Hc as [Hc Hne].
  apply negb_true_iff, String.eqb_neq in Hne.
  rewrite lookup_delete_ne by congruence.
  exact (proj1 (List.Forall_forall _ _) Hinv c Hc).
Qed.

Lemma background_task_preserves_chunks_reference_blobs
    (create_embeddings : list Byte.byte -> option (list string * list (list Q)))
    object_key w :
  chunks_reference_blobs w ->
  chunks_reference_blobs (fst (process_document_embeddings create_embeddings object_key w)).
Proof.
  intros Hinv. unfold process_document_embeddings.
  destruct (minio w !! object_key) as [data|] eqn:Hm; [|exact Hinv].
  destruct (create_embeddings data) as [[chunks embs]|]; [|exact Hinv].
  unfold save_embeddings_to_vectordb.
  destruct (zip chunks embs) as [|[text e] rest]; exact Hinv.
Qed.

(** C4: every operation keeps each Chunk's [object_key] naming a stored
    object, and an operation that deletes a stored object (the last
    FileRecord removed by [remove_document]) leaves no Chunk of that key. *)
Theorem chunks_follow_blobs hash create_embeddings w w' :
  step hash create_embeddings w w' ->
  chunks_reference_blobs w ->
  chunks_reference_blobs w' /\
  (forall k, is_Some (minio w !! k) -> minio w' !! k = None ->
   Forall (fun c => chunk_object_key c <> k) (embeddings w')).
Proof.
  intros Hstep Hinv.
  assert (Hinv' : chunks_reference_blobs w').
  { destruct Hstep as [w app user_id data md|w user_id k|w k rest Ht].
    - apply upload_preserves_chunks_reference_blobs, Hinv.
    - apply remove_preserves_chunks_reference_blobs, Hinv.
    - apply background_task_preserves_chunks_reference_blobs. exact Hinv. }
  split; [exact Hinv'|].
  intros k _ Hgone. unfold chunks_reference_blobs in Hinv'.
  eapply List.Forall_impl; [|exact Hinv'].
  intros c [v Hv] Heq. rewrite Heq in Hv. congruence.
Qed.

Definition c4_world : World :=
  mkWorld {[ "2" := [Byte.x61; Byte.x62] ]} {[ "2" := mkObjectRow "text/plain" 2 ]}
    [mkFileRecord 1 "2" "a.txt" "text/plain"]
    [mkChunk "2" [1; 0] "ab"] [] [].

Lemma chunks_follow_blobs_witness :
  step length_digest (fun _ => None) c4_world (fst (remove_document 1 "2" c4_world)) /\
  chunks_reference_blobs c4_world /\
  (chunks_reference_blobs (fst (remove_document 1 "2" c4_world)) /\
   (forall k, is_Some (minio c4_world !! k) ->
      minio (fst (remove_document 1 "2" c4_world)) !! k = None ->
      Forall (fun c => chunk_object_key c <> k)
        (embeddings (fst (remove_document 1 "2" c4_world))))).
Proof.
  assert (Hs : step length_digest (fun _ => None) c4_world
                 (fst (remove_document 1 "2" c4_world))) by apply step_remove.
  assert (Hi : chunks_reference_blobs c4_world).
  { unfold chunks_reference_blobs. repeat constructor. eexists. reflexivity. }
  split; [exact Hs|]. split; [exact Hi|].
  exact (chunks_follow_blobs length_digest (fun _ => None) c4_world _ Hs Hi).
Defined.

(* ===================================================================== *)
(** ** The orchestrator                                                    *)
(* ===================================================================== *)

(** A computation that completes normally has not recorded a raised model
    call: a model call that raises ends the computation with that
    exception. *)
Definition completes_without_raised_call {A} (m : RagM A) : Prop :=
  forall log log' a kind, m log = (log', Returns a) ->
  In (ModelCall kind true) log' -> In (ModelCall kind true) log.

Lemma cwrc_ret {A} (a : A) : completes_without_raised_call (rag_ret a).
Proof. intros log log' b kind E. injection E as <- _. tauto. Qed.

Lemma cwrc_raise {A} (e : string) : completes_without_raised_call (A := A) (rag_raise e).
Proof. intros log log' b kind E. discriminate. Qed.

Lemma cwrc_bind {A B} (m : RagM A) (f : A -> RagM B) :
  completes_without_raised_call m ->
  (forall a, completes_without_raised_call (f a)) ->
  completes_without_raised_call (rag_bind m f).
Proof.
  intros Hm Hf log log' b kind E Hin. unfold rag_bind in E.
  destruct (m log) as [l1 [a|e]] eqn:Em; [|discriminate].
  eapply Hm; [exact Em|]. eapply Hf; [exact E|exact Hin].
Qed.

Lemma cwrc_emit (ev : RagEvent) :
  (forall kind, ev <> ModelCall kind true) ->
  completes_without_raised_call (rag_emit ev).
Proof.
  intros Hev log log' u kind E Hin. injection E as <- _.
  apply in_app_or in Hin as [Hin|[Heq|[]]]; [exact Hin|].
  exfalso. apply (Hev kind). exact Heq.
Qed.

Lemma cwrc_model_call {A} kind (o : Outcome A) :
  completes_without_raised_call (model_call kind o).
Proof.
  destruct o as [a|e]; unfold model_call.
  - apply cwrc_bind; [apply cwrc_emit; congruence|]. intros _. apply cwrc_ret.
  - intros log log' a kind' E. discriminate E.
Qed.

Lemma cwrc_mapM {A B} (f : A -> RagM B) (l : list A) :
  (forall a, completes_without_raised_call (f a)) ->
  completes_without_raised_call (rag_mapM f l).
Proof.
  intros Hf. induction l as [|x l IH]; cbn [rag_mapM].
  - apply cwrc_ret.
  - apply cwrc_bind; [apply Hf|]. intros y.
    apply cwrc_bind; [exact IH|]. intros ys. apply cwrc_ret.
Qed.

Create HintDb rag_cwrc.
#[export] Hint Resolve cwrc_ret cwrc_raise cwrc_model_call : rag_cwrc.

Lemma rag_body_cwrc cd SYSTEM_PROMPT table decision embed fetch final query object_keys :
  completes_without_raised_call
    (rag_body cd SYSTEM_PROMPT table decision embed fetch final query object_keys).
Proof.
  unfold rag_body.
  apply cwrc_bind; [auto with rag_cwrc|]. intros tool_calls.
  apply cwrc_bind.
  - destruct tool_calls; [|auto with rag_cwrc].
    apply cwrc_bind; [auto with rag_cwrc|]. intros qe.
    apply cwrc_bind.
    + unfold retrieve_relevant_chunks.
      apply cwrc_bind; [apply cwrc_emit; congruence|]. intros _.
      destruct (search_exec _ _ _ _ _ _); auto with rag_cwrc.
    + intros chunks. apply cwrc_bind.
      * apply cwrc_mapM. intros chunk. unfold source_of_chunk.
        apply cwrc_bind; [apply cwrc_emit; congruence|]. intros _.
        destruct (fetch _); auto with rag_cwrc.
      * intros sources. apply cwrc_ret.
  - intros [sources messages'].
    apply cwrc_bind; [auto with rag_cwrc|]. intros [text|]; auto with rag_cwrc.
Qed.

(** C8: when a model call of [create_rag_response] (the decision completion,
    the query embedding or the final completion) raises, the function still
    returns normally, with a text that starts with
    ["Error generating response: "] and an empty list of sources. *)
Theorem rag_model_exception_becomes_error_result cd SYSTEM_PROMPT table decision
    embed fetch final query object_keys kind :
  In (ModelCall kind true)
    (snd (create_rag_response cd SYSTEM_PROMPT table decision embed fetch final
            query object_keys)) ->
  exists e, fst (create_rag_response cd SYSTEM_PROMPT table decision embed fetch final
                   query object_keys) = (error_marker +:+ e, []).
Proof.
  intros Hin. unfold create_rag_response in *.
  destruct (rag_body cd SYSTEM_PROMPT table decision embed fetch final query object_keys [])
    as [log [r|e]] eqn:E; cbn [fst snd] in *.
  - exfalso. exact (rag_body_cwrc cd SYSTEM_PROMPT table decision embed fetch final
                      query object_keys [] log r kind E Hin).
  - exists e. reflexivity.
Qed.

Lemma rag_model_exception_becomes_error_result_witness :
  In (ModelCall DecisionCompletion true)
    (snd (create_rag_response unit_cosine_distance "You are helpful." []
            (fun _ => Throws "RateLimitError") (fun _ => Returns [1; 0])
            (fun _ => None) (fun _ => Returns (Some "ok")) "when does Atlas ship" ["k"])) /\
  exists e, fst (create_rag_response unit_cosine_distance "You are helpful." []
                   (fun _ => Throws "RateLimitError") (fun _ => Returns [1; 0])
                   (fun _ => None) (fun _ => Returns (Some "ok")) "when does Atlas ship" ["k"])
            = (error_marker +:+ e, []).
Proof.
  assert (Hin : In (ModelCall DecisionCompletion true)
    (snd (create_rag_response unit_cosine_distance "You are helpful." []
            (fun _ => Throws "RateLimitError") (fun _ => Returns [1; 0])
            (fun _ => None) (fun _ => Returns (Some "ok")) "when does Atlas ship" ["k"])))
    by (vm_compute; left; reflexivity).
  split; [exact Hin|].
  exact (rag_model_exception_becomes_error_result _ _ _ _ _ _ _ _ _ _ Hin).
Defined.

Lemma search_exec_no_keys cd table query_embedding limit threshold :
  (0 <= limit)%Z ->
  search_exec cd table query_embedding [] limit threshold = Fetched [].
Proof.
  intros Hl. unfold search_exec.
  destruct (Z.ltb_spec limit 0) as [Hlt|_]; [lia|].
  assert (Hf : List.filter (where_clause cd query_embedding [] threshold) table = []).
  { induction table as [|c table IH]; [reflexivity|]. exact IH. }
  rewrite Hf. rewrite firstn_nil. reflexivity.
Qed.

Lemma retrieve_no_keys cd table query_embedding log :
  retrieve_relevant_chunks cd table query_embedding [] log =
    (log ++ [IndexQuery []], Returns []).
Proof.
  unfold retrieve_relevant_chunks, rag_bind, rag_emit.
  rewrite search_exec_no_keys by lia. reflexivity.
Qed.

(** C5 (counterexample): with an empty [object_keys], a decision completion
    that elects retrieval is followed by the query embedding and the index
    query [search_similar_chunks_by_objects] with the empty list. *)
Lemma rag_empty_keys_still_queries_index :
  create_rag_response unit_cosine_distance "You are helpful." []
    (fun _ => Returns true) (fun _ => Returns [1; 0]) (fun _ => None)
    (fun _ => Returns (Some "I did not find an answer in the context."))
    "when does Atlas ship" [] =
  (("I did not find an answer in the context.", []),
   [ModelCall DecisionCompletion false; ModelCall QueryEmbedding false;
    IndexQuery []; ModelCall FinalCompletion false]).
Proof. vm_compute. reflexivity. Qed.

(** C5 (amended): with an empty [object_keys], [create_rag_response]
    returns empty sources whatever the models answer; it does not
    short-circuit: when the decision completion elects retrieval and the
    query is embedded, the index query is still issued (and yields no
    rows). *)
Theorem rag_empty_keys_no_sources cd SYSTEM_PROMPT table decision embed fetch final query :
  snd (fst (create_rag_response cd SYSTEM_PROMPT table decision embed fetch final
              query [])) = [] /\
  (forall qe, decision (initial_messages SYSTEM_PROMPT query) = Returns true ->
   embed query = Returns qe ->
   In (IndexQuery [])
     (snd (create_rag_response cd SYSTEM_PROMPT table decision embed fetch final
             query []))).
Proof.
  unfold create_rag_response, rag_body.
  destruct (decision (initial_messages SYSTEM_PROMPT query)) as [[|]|e] eqn:Ed.
  - destruct (embed query) as [qe|e] eqn:Ee;
      unfold model_call, rag_emit, rag_ret, rag_raise, rag_bind; cbv beta iota zeta.
    + rewrite retrieve_no_keys. cbn.
      destruct (final _) as [[text|]|e]; cbn; split; try reflexivity;
        intros qe' _ _; tauto.
    + cbn. split; [reflexivity|]. intros qe' _ Habs. discriminate.
  - unfold model_call, rag_emit, rag_ret, rag_raise, rag_bind; cbv beta iota zeta.
    destruct (final _) as [[text|]|e]; cbn; split; try reflexivity;
      intros qe' Habs; discriminate.
  - cbn. split; [reflexivity|]. intros qe' Habs. discriminate.
Qed.

(* ===================================================================== *)
(** ** The agents: [process_message] and the rag_agent's reply           *)
(* ===================================================================== *)

Lemma update_last_snoc {A} (f : A -> A) (l : list A) (x : A) :
  update_last f (l ++ [x]) = l ++ [f x].
Proof.
  induction l as [|y l IH]; [reflexivity|].
  destruct l as [|z l]; [reflexivity|].
  transitivity (y :: update_last f ((z :: l) ++ [x])); [reflexivity|].
  rewrite IH. reflexivity.
Qed.

Lemma last_app_single {A} (l : list A) (x : A) : last (l ++ [x]) = Some x.
Proof. induction l as [|y [|z l] IH]; [reflexivity|reflexivity|exact IH]. Qed.

Lemma unexpected_error_text_split (e : string) :
  unexpected_error_prefix +:+ e =
  "An unexpected error occurred" +:+ String colon (" " +:+ e).
Proof. reflexivity. Qed.

(** [AgentChat.process_message]: when the group chat raises [e], the
    System turn ["An unexpected error occurred: " + e] is put on the queue
    after the turns streamed before the exception, with its text kept
    whole: its part before the first colon has lower-case letters, so
    [_send_message] does not strip it as a tag. *)
Theorem process_message_error_turn_verbatim {U : UnicodeData} run_chat queue message queue' e :
  run_chat ("QUESTION: " +:+ message) queue = (queue', Throws e) ->
  process_message true run_chat queue message =
  option_map (fun q => q ++ [mkTurn "System" (unexpected_error_prefix +:+ e) []]) queue'.
Proof.
  intros Hrun. unfold process_message. cbn [negb]. rewrite Hrun.
  unfold _send_message, strip_tag.
  rewrite unexpected_error_text_split, split_first_colon_app by reflexivity.
  rewrite <- unexpected_error_text_split.
  destruct queue'; reflexivity.
Qed.

Lemma process_message_error_turn_verbatim_witness :
  (fun (_ : string) (q : option (list Turn)) =>
     (option_map (fun q => q ++ [mkTurn "Query Analyzer Agent" "which part?" []]) q,
      @Throws unit "Connection error.")) ("QUESTION: " +:+ "brakes squeak") (Some []) =
  (Some [mkTurn "Query Analyzer Agent" "which part?" []], Throws "Connection error.") /\
  process_message (U := latin1_unicode_data) true
    (fun (_ : string) (q : option (list Turn)) =>
       (option_map (fun q => q ++ [mkTurn "Query Analyzer Agent" "which part?" []]) q,
        @Throws unit "Connection error.")) (Some []) "brakes squeak" =
  option_map (fun q => q ++ [mkTurn "System" (unexpected_error_prefix +:+ "Connection error.") []])
    (Some [mkTurn "Query Analyzer Agent" "which part?" []]).
Proof.
  split; [reflexivity|].
  apply process_message_error_turn_verbatim. reflexivity.
Defined.

(** The reply function of the rag_agent: on an empty [messages]
    ([messages[-1]] raises [IndexError]) there is no reply; when the
    retrieval times out or raises, it returns [(True, "ERROR: ...")] with
    the retrieval's message, puts nothing on the queue, leaves [messages]
    unchanged and never calls the model. *)
Theorem rag_reply_retrieval_failure {U : UnicodeData} format_score queue messages role content
    retrieve generate :
  rag_reply_func format_score queue [] true retrieve generate = None /\
  (retrieve content = RetrievalTimedOut ->
   rag_reply_func format_score queue (messages ++ [(role, content)]) true retrieve generate =
   Some ((true, "ERROR: Document retrieval took too long"), queue,
         messages ++ [(role, content)])) /\
  (forall e, retrieve content = RetrievalRaised e ->
   rag_reply_func format_score queue (messages ++ [(role, content)]) true retrieve generate =
   Some ((true, "ERROR: " +:+ e), queue, messages ++ [(role, content)])).
Proof.
  split; [reflexivity|].
  unfold rag_reply_func. rewrite last_app_single.
  split; [intros Hr | intros e Hr]; unfold query_knowledge_base; rewrite Hr; reflexivity.
Qed.

(** The reply function of the rag_agent when the retrieval returns
    [nodes]: the last message gets ["\n"] and the SOURCES block appended in
    place, the model is called on the updated messages, and a non-empty
    reply is streamed as one "Rag Agent" turn carrying one source per node
    (file name, page label, text) and returned with its flag. *)
Theorem rag_reply_streams_sources {U : UnicodeData} format_score queue messages role content
    retrieve generate nodes flag response :
  retrieve content = Retrieved nodes ->
  generate (messages ++ [(role, content +:+ newline +:+ sources_block format_score nodes)]) =
    Generated flag (Some response) ->
  response <> EmptyString ->
  rag_reply_func format_score queue (messages ++ [(role, content)]) true retrieve generate =
  Some ((flag, response),
        option_map (fun q => q ++ [mkTurn "Rag Agent" (strip_tag response)
                                    (map node_source nodes)]) queue,
        messages ++ [(role, content +:+ newline +:+ sources_block format_score nodes)]).
Proof.
  intros Hr Hg Hne. unfold rag_reply_func. rewrite last_app_single.
  unfold query_knowledge_base. rewrite Hr. cbv zeta.
  rewrite update_last_snoc. rewrite Hg. unfold _safe_generate_reply.
  apply String.eqb_neq in Hne. rewrite Hne.
  unfold _send_message. destruct queue; reflexivity.
Qed.

Definition example_node : NodeWithScore :=
  mkNodeWithScore "n1" (9 # 10) "3" "manual.pdf" "Loosen the caliper bolts.".

Lemma rag_reply_streams_sources_witness :
  (fun _ : string => Retrieved [example_node]) "How do I replace the pads?" =
    Retrieved [example_node] /\
  (fun _ : list Message => Generated true (Some "REPAIR INSTRUCTIONS: Remove the wheel."))
    ([] ++ [("user", "How do I replace the pads?" +:+ newline
                     +:+ sources_block (fun _ => "0.9000") [example_node])]) =
    Generated true (Some "REPAIR INSTRUCTIONS: Remove the wheel.") /\
  "REPAIR INSTRUCTIONS: Remove the wheel." <> EmptyString /\
  rag_reply_func (U := latin1_unicode_data) (fun _ => "0.9000") (Some []) ([] ++ [("user", "How do I replace the pads?")])
    true (fun _ => Retrieved [example_node])
    (fun _ => Generated true (Some "REPAIR INSTRUCTIONS: Remove the wheel.")) =
  Some ((true, "REPAIR INSTRUCTIONS: Remove the wheel."),
        option_map (fun q => q ++ [mkTurn "Rag Agent"
                                    (strip_tag (U := latin1_unicode_data) "REPAIR INSTRUCTIONS: Remove the wheel.")
                                    (map node_source [example_node])]) (Some []),
        [] ++ [("user", "How do I replace the pads?" +:+ newline
                        +:+ sources_block (fun _ => "0.9000") [example_node])]).
Proof.
  assert (Hne : "REPAIR INSTRUCTIONS: Remove the wheel." <> EmptyString) by discriminate.
  split; [reflexivity|]. split; [reflexivity|]. split; [exact Hne|].
  apply rag_reply_streams_sources; [reflexivity|reflexivity|exact Hne].
Defined.

(* ===================================================================== *)
(** ** The document indices                                              *)
(* ===================================================================== *)

Lemma dict_lookup_set_eq {V} (k : string) (v : V) (d : list (string * V)) :
  dict_lookup k (dict_set k v d) = Some v.
Proof.
  induction d as [|[k' v'] d IH]; cbn.
  - rewrite String.eqb_refl. reflexivity.
  - destruct (String.eqb k' k) eqn:E; cbn; rewrite E; [reflexivity|exact IH].
Qed.

Lemma dict_lookup_set_ne {V} (k j : string) (v : V) (d : list (string * V)) :
  k <> j -> dict_lookup j (dict_set k v d) = dict_lookup j d.
Proof.
  intros Hne. induction d as [|[k' v'] d IH]; cbn.
  - apply String.eqb_neq in Hne. rewrite Hne. reflexivity.
  - destruct (String.eqb k' k) eqn:E; cbn.
    + apply String.eqb_eq in E. subst k'.
      apply String.eqb_neq in Hne. rewrite Hne. reflexivity.
    + destruct (String.eqb k' j); [reflexivity|exact IH].
Qed.

Lemma dict_lookup_del {V} (k j : string) (d : list (string * V)) :
  dict_lookup j (dict_del k d) = if String.eqb k j then None else dict_lookup j d.
Proof.
  unfold dict_del. induction d as [|[k' v'] d IH]; cbn.
  - destruct (String.eqb k j); reflexivity.
  - destruct (String.eqb k' k) eqn:Ek; cbn.
    + apply String.eqb_eq in Ek. subst k'. rewrite IH.
      destruct (String.eqb k j); reflexivity.
    + rewrite IH. destruct (String.eqb k j) eqn:Ekj; [|reflexivity].
      apply String.eqb_eq in Ekj. subst j. rewrite Ek. reflexivity.
Qed.

Section KnowledgeBaseFacts.

Context {Index : Type}.

(** The loop only adds retrievers, returns for each file the retriever
    stored under its name at the end, and keeps the entries it found. *)
Lemma get_tools_loop_spec (items : list (string * Index)) rs next out rs' next' :
  get_tools_loop Index items rs next = (out, rs', next') ->
  (forall k r, dict_lookup k rs = Some r -> dict_lookup k rs' = Some r) /\
  map Some out = map (fun it => dict_lookup (fst it) rs') items.
Proof.
  revert rs next out rs' next'.
  induction items as [|[file index] items IH]; intros rs next out rs' next' E; cbn in E.
  - injection E as <- <- <-. split; [tauto|reflexivity].
  - destruct (dict_lookup file rs) as [r|] eqn:El.
    + destruct (get_tools_loop Index items rs next) as [[out1 rs1] next1] eqn:E1.
      injection E as <- <- <-.
      destruct (IH _ _ _ _ _ E1) as [Hk Hm].
      split; [exact Hk|]. cbn. rewrite Hm. f_equal. symmetry. apply Hk, El.
    + destruct (get_tools_loop Index items (dict_set file (mkRetriever Index index next) rs)
                  (S next)) as [[out1 rs1] next1] eqn:E1.
      injection E as <- <- <-.
      destruct (IH _ _ _ _ _ E1) as [Hk Hm].
      split.
      * intros k r Hr. apply Hk. destruct (decide (file = k)) as [->|Hne].
        -- congruence.
        -- rewrite dict_lookup_set_ne by exact Hne. exact Hr.
      * cbn. rewrite Hm. f_equal. symmetry. apply Hk, dict_lookup_set_eq.
Qed.

(** When every file already has a retriever, the loop creates none. *)
Lemma get_tools_loop_cached (items : list (string * Index)) rs next :
  Forall (fun it => is_Some (dict_lookup (fst it) rs)) items ->
  exists out, get_tools_loop Index items rs next = (out, rs, next) /\
    map Some out = map (fun it => dict_lookup (fst it) rs) items.
Proof.
  induction items as [|[file index] items IH]; intros Hall.
  - exists []. split; reflexivity.
  - apply Forall_cons in Hall as [[r Hr] Hall]. cbn [fst] in Hr.
    destruct (IH Hall) as (out & E & Hm).
    exists (r :: out). cbn. rewrite Hr, E. split; [reflexivity|].
    cbn. rewrite Hm. reflexivity.
Qed.

Lemma get_tools_loop_length (items : list (string * Index)) rs next :
  length (fst (fst (get_tools_loop Index items rs next))) = length items.
Proof.
  destruct (get_tools_loop Index items rs next) as [[out rs'] next'] eqn:E.
  apply get_tools_loop_spec in E as [_ Hm]. cbn.
  rewrite <- (length_map Some out), Hm, length_map. reflexivity.
Qed.

Lemma map_Some_inj {A} (l1 l2 : list A) : map Some l1 = map Some l2 -> l1 = l2.
Proof.
  revert l2. induction l1 as [|x l1 IH]; intros [|y l2] E; cbn in E; try discriminate.
  - reflexivity.
  - injection E as -> E. f_equal. apply IH, E.
Qed.

End KnowledgeBaseFacts.

(** [MultiDocumentRetrieval._get_tools]: it returns one retriever per
    index, in the order of [_indices], and caches them in [_retrievers]; a
    second call returns the same retriever objects and creates no new one. *)
Theorem get_tools_idempotent {Index : Type} (kb : KnowledgeBase Index) :
  let '(out, kb1) := _get_tools Index kb in
  length out = length (kb_indices Index kb) /\ _get_tools Index kb1 = (out, kb1).
Proof.
  unfold _get_tools.
  destruct (get_tools_loop Index (kb_indices Index kb) (kb_retrievers Index kb)
              (kb_next_object Index kb)) as [[out rs] next] eqn:E.
  pose proof (get_tools_loop_length (kb_indices Index kb) (kb_retrievers Index kb)
                (kb_next_object Index kb)) as Hlen.
  rewrite E in Hlen. cbn in Hlen.
  apply get_tools_loop_spec in E as [_ Hm].
  assert (Hall : Forall (fun it => is_Some (dict_lookup (fst it) rs)) (kb_indices Index kb)).
  { apply List.Forall_forall. intros it Hin.
    assert (Hin' : In (dict_lookup (fst it) rs) (map Some out)).
    { rewrite Hm. exact (in_map (fun it => dict_lookup (fst it) rs) _ _ Hin). }
    apply in_map_iff in Hin' as (r & Hr & _). exists r. symmetry. exact Hr. }
  destruct (get_tools_loop_cached (kb_indices Index kb) rs next Hall) as (out2 & E2 & Hm2).
  split; [exact Hlen|]. cbn [kb_indices kb_retrievers kb_next_object]. rewrite E2.
  rewrite <- Hm in Hm2. apply map_Some_inj in Hm2. subst out2. reflexivity.
Qed.

(** [setup_retriever] leaves [_retriever] at [None] exactly when there is
    no index; then [process_message] puts the single System turn "No
    documents found. Please upload documents first." on the queue and does
    not start the group chat. *)
Theorem setup_retriever_no_documents {U : UnicodeData} {Index : Type} (kb : KnowledgeBase Index) :
  (has_retriever Index (setup_retriever Index kb) = false <-> kb_indices Index kb = []) /\
  (kb_indices Index kb = [] -> forall run_chat queue message,
   process_message (has_retriever Index (setup_retriever Index kb)) run_chat queue message =
   option_map (fun q => q ++ [mkTurn "System" no_documents_text []]) queue).
Proof.
  assert (Hiff : has_retriever Index (setup_retriever Index kb) = false <->
                 kb_indices Index kb = []).
  { pose proof (get_tools_loop_length (kb_indices Index kb) (kb_retrievers Index kb)
                  (kb_next_object Index kb)) as Hlen.
    unfold has_retriever, setup_retriever, _get_tools.
    destruct (get_tools_loop Index (kb_indices Index kb) (kb_retrievers Index kb)
                (kb_next_object Index kb)) as [[out rs] next]. cbn in Hlen |- *.
    destruct out as [|r out]; cbn; split; intros H; try reflexivity; try discriminate.
    - destruct (kb_indices Index kb); [reflexivity|discriminate].
    - rewrite H in Hlen. discriminate. }
  split; [exact Hiff|].
  intros Hnil run_chat queue message. apply Hiff in Hnil. rewrite Hnil.
  unfold process_message, _send_message. destruct queue; reflexivity.
Qed.

Lemma filter_filter_and {A} (p q : A -> bool) (l : list A) :
  List.filter p (List.filter q l) = List.filter (fun x => q x && p x) l.
Proof.
  induction l as [|x l IH]; cbn; [reflexivity|].
  destruct (q x); cbn; [destruct (p x); cbn|]; rewrite ?IH; reflexivity.
Qed.

Lemma filter_id_in {A} (p : A -> bool) (l : list A) :
  (forall x, In x l -> p x = true) -> List.filter p l = l.
Proof.
  induction l as [|x l IH]; intros Hp; cbn; [reflexivity|].
  rewrite (Hp x (or_introl eq_refl)), IH; [reflexivity|].
  intros y Hy. apply Hp. right. exact Hy.
Qed.

Lemma fold_delete_spec {Index : Type} (fs : list string) (indices : list (string * Index))
    (retrievers : list (string * Retriever Index)) :
  let '(indices', retrievers') :=
    fold_left (fun '(indices, retrievers) file =>
                 (dict_del file indices,
                  if dict_mem file retrievers then dict_del file retrievers else retrievers))
      fs (indices, retrievers) in
  indices' = List.filter (fun '(f, _) => negb (existsb (String.eqb f) fs)) indices /\
  (forall j, dict_lookup j retrievers' =
             if existsb (String.eqb j) fs then None else dict_lookup j retrievers).
Proof.
  revert indices retrievers.
  induction fs as [|file fs IH]; intros indices retrievers; cbn [fold_left].
  - split.
    + symmetry. apply filter_id_in. intros [f i] _. reflexivity.
    + intros j. reflexivity.
  - specialize (IH (dict_del file indices)
                  (if dict_mem file retrievers then dict_del file retrievers else retrievers)).
    destruct (fold_left _ fs _) as [indices' retrievers'].
    destruct IH as [Hi Hr]. split.
    + rewrite Hi. unfold dict_del. rewrite filter_filter_and.
      apply List.filter_ext_in. intros [f i] _. cbn [existsb].
      destruct (String.eqb f file); reflexivity.
    + intros j. rewrite Hr. cbn [existsb].
      rewrite (String.eqb_sym j file).
      destruct (existsb (String.eqb j) fs); [rewrite orb_true_r; reflexivity|].
      rewrite orb_false_r.
      unfold dict_mem. destruct (dict_lookup file retrievers) eqn:Ef.
      * rewrite dict_lookup_del. reflexivity.
      * destruct (String.eqb file j) eqn:Efj; [|reflexivity].
        apply String.eqb_eq in Efj. subst j. exact Ef.
Qed.

(** [MultiDocumentRetrieval.delete_indices]: afterwards [_indices] holds
    exactly the indices whose file is still in the upload directory, in
    their order; the files of the deleted indices have no cached retriever
    and the others keep theirs; [_retriever] is left as it was, still
    built over the retrievers of the deleted indices. *)
Theorem delete_indices_keeps_uploads {Index : Type} (uploads : list string)
    (kb : KnowledgeBase Index) :
  let kb' := delete_indices Index uploads kb in
  kb_indices Index kb' =
    List.filter (fun '(f, _) => existsb (String.eqb f) uploads) (kb_indices Index kb) /\
  (forall f, existsb (String.eqb f) uploads = true ->
   dict_lookup f (kb_retrievers Index kb') = dict_lookup f (kb_retrievers Index kb)) /\
  (forall f, In f (map fst (kb_indices Index kb)) -> existsb (String.eqb f) uploads = false ->
   dict_lookup f (kb_retrievers Index kb') = None) /\
  kb_retriever Index kb' = kb_retriever Index kb.
Proof.
  cbv zeta. unfold delete_indices.
  remember (List.filter (not_in_list uploads) (map fst (kb_indices Index kb))) as del eqn:Hdel.
  (* a file of an index is deleted exactly when it is not uploaded *)
  assert (Hmem : forall f, In f (map fst (kb_indices Index kb)) ->
                 existsb (String.eqb f) del = negb (existsb (String.eqb f) uploads)).
  { intros f Hf. subst del. apply Bool.eq_iff_eq_true. rewrite existsb_exists.
    split.
    - intros (g & Hg & Efg). apply String.eqb_eq in Efg. subst g.
      apply filter_In in Hg as [_ Hg]. exact Hg.
    - intros Hn. exists f. split; [|apply String.eqb_refl].
      apply filter_In. split; [exact Hf|exact Hn]. }
  destruct del as [|d ds] eqn:Edel.
  - repeat split; try reflexivity.
    + symmetry. apply filter_id_in. intros [f i] Hi. cbn.
      assert (Hf : In f (map fst (kb_indices Index kb))) by (apply in_map_iff; exists (f, i); tauto).
      specialize (Hmem f Hf). cbn in Hmem. destruct (existsb (String.eqb f) uploads); easy.
    + intros f Hf Hn. specialize (Hmem f Hf). rewrite Hn in Hmem. discriminate.
  - pose proof (fold_delete_spec (d :: ds) (kb_indices Index kb) (kb_retrievers Index kb))
      as Hs.
    destruct (fold_left _ _ _) as [indices' retrievers'].
    destruct Hs as [Hi Hr]. cbn [kb_indices kb_retrievers kb_retriever].
    repeat split.
    + rewrite Hi. apply List.filter_ext_in. intros [f i] Hin.
      assert (Hf : In f (map fst (kb_indices Index kb))) by (apply in_map_iff; exists (f, i); tauto).
      rewrite (Hmem f Hf). apply negb_involutive.
    + intros f Hup. rewrite Hr.
      destruct (existsb (String.eqb f) (d :: ds)) eqn:Ed; [|reflexivity].
      apply existsb_exists in Ed as (g & Hg & Efg). apply String.eqb_eq in Efg. subst g.
      rewrite Hdel in Hg. apply filter_In in Hg as [_ Hg].
      unfold not_in_list in Hg. rewrite Hup in Hg. discriminate.
    + intros f Hf Hn. rewrite Hr, (Hmem f Hf), Hn. reflexivity.
Qed.

(* ===================================================================== *)
(** ** Serving and listing files                                         *)
(* ===================================================================== *)

Lemma find_app {A} (f : A -> bool) (l1 l2 : list A) :
  List.find f (l1 ++ l2) = match List.find f l1 with Some x => Some x | None => List.find f l2 end.
Proof. induction l1 as [|x l1 IH]; cbn; [reflexivity|]. destruct (f x); [reflexivity|exact IH]. Qed.

Lemma find_none_existsb {A} (f : A -> bool) (l : list A) :
  List.find f l = None <-> existsb f l = false.
Proof.
  induction l as [|x l IH]; cbn; [tauto|].
  destruct (f x); cbn; [split; discriminate|exact IH].
Qed.

Lemma find_some_In {A} (f : A -> bool) (l : list A) x :
  List.find f l = Some x -> In x l /\ f x = true.
Proof. apply find_some. Qed.

Lemma fetch_user_file_insert (user_id : nat) (k : string) (r : FileRecord) (w : World) :
  fr_user_id r = user_id -> fr_object_key r = k ->
  fetch_user_file user_id k (insert_user_file r w) =
  match fetch_user_file user_id k w with Some r' => Some r' | None => Some r end.
Proof.
  intros <- <-. unfold fetch_user_file, insert_user_file.
  destruct (existsb _ (user_files w)) eqn:E; world_simpl.
  - destruct (List.find _ (user_files w)) eqn:F; [reflexivity|].
    apply find_none_existsb in F. congruence.
  - rewrite find_app.
    destruct (List.find _ (user_files w)) eqn:F; [reflexivity|]. cbn.
    rewrite Nat.eqb_refl, String.eqb_refl. reflexivity.
Qed.

Lemma or_octet_stream_default (md : FileMetadata) :
  or_octet_stream (content_type_or_default md) = content_type_or_default md.
Proof.
  unfold content_type_or_default, or_octet_stream.
  destruct (content_type md) as [ct|]; [|reflexivity].
  destruct (String.eqb ct EmptyString) eqn:E; [reflexivity|]. rewrite E. reflexivity.
Qed.

Lemma fetch_user_file_exists (user_id : nat) (k : string) (w : World) :
  fetch_user_file user_id k w = None <->
  ~ exists r, In r (user_files w) /\ fr_user_id r = user_id /\ fr_object_key r = k.
Proof.
  unfold fetch_user_file. split.
  - intros F (r & Hin & Hu & Hk).
    apply find_none_existsb in F.
    assert (Hex : existsb (fun r => Nat.eqb (fr_user_id r) user_id &&
                                    String.eqb (fr_object_key r) k) (user_files w) = true).
    { apply existsb_exists. exists r. split; [exact Hin|].
      rewrite Hu, Hk, Nat.eqb_refl, String.eqb_refl. reflexivity. }
    congruence.
  - intros Hno. destruct (List.find _ _) as [r|] eqn:F; [|reflexivity].
    exfalso. apply Hno. apply find_some in F as [Hin Hr].
    apply andb_true_iff in Hr as [Hu Hk].
    apply Nat.eqb_eq in Hu. apply String.eqb_eq in Hk. exists r. tauto.
Qed.

(** [serve_file] answers 403 "You do not have permission to access this
    file" exactly when the user has no FileRecord for the URL-decoded key,
    whatever the bucket holds; a user who has one is never refused with
    403. *)
Theorem serve_file_forbidden_iff_no_record unquote_percent no_such_key_text user_id
    object_key w :
  serve_file unquote_percent no_such_key_text user_id object_key w =
    ServeError 403 "You do not have permission to access this file" <->
  ~ exists r, In r (user_files w) /\ fr_user_id r = user_id /\
              fr_object_key r = unquote unquote_percent object_key.
Proof.
  rewrite <- fetch_user_file_exists. unfold serve_file.
  destruct (fetch_user_file _ _ _) as [r|]; [|tauto].
  split; [|discriminate].
  destruct (minio w !! _); discriminate.
Qed.

(** Upload then serve: after an upload answered with [HttpOk _ k], the
    uploader's request for [/serve/k] streams back the uploaded bytes
    (provided the digest has no ['%'] and the bucket holds no other bytes
    under that digest); when the user had no FileRecord for that key
    before, the media type and the file name are those of this upload. *)
Theorem upload_then_serve H unquote_percent no_such_key_text app user_id data md w
    ui w' msg k :
  percent_free (H data) = true ->
  (forall d, minio w !! H data = Some d -> d = data) ->
  upload_request H app user_id data md w = (ui, (w', HttpOk msg k)) ->
  exists media_type filename,
    serve_file unquote_percent no_such_key_text user_id k w' =
      Streaming data media_type filename /\
    (fetch_user_file user_id k w = None ->
     media_type = content_type_or_default md /\ filename = file_name md).
Proof.
  intros Hpct Hold Hup. unfold upload_request, upload_request_in in Hup.
  injection Hup as <- Hdoc.
  pose proof (upload_document_in_result_key no_faults app user_id (validate_upload H data md w) w msg k)
    as Hk. rewrite Hdoc in Hk. specialize (Hk eq_refl).
  rewrite validate_upload_key in Hk. subst k.
  pose proof (upload_document_in_minio no_faults app user_id (validate_upload H data md w) w) as Hm.
  rewrite Hdoc in Hm. cbn [fst] in Hm.
  assert (Hdata : minio w' !! H data = Some data).
  { rewrite Hm. unfold validate_upload.
    destruct (minio w !! H data) as [d|] eqn:E; cbn.
    - rewrite E. f_equal. exact (Hold d eq_refl).
    - rewrite lookup_insert_eq. reflexivity. }
  (* the FileRecord lookup after the upload *)
  assert (Hrec : fetch_user_file user_id (H data) w' =
                 match fetch_user_file user_id (H data) w with
                 | Some r => Some r
                 | None => Some (mkFileRecord user_id (H data) (file_name md)
                                   (content_type_or_default md))
                 end).
  { unfold upload_document_in in Hdoc.
    set (rec := mkFileRecord user_id (fi_object_key (fileinfo (validate_upload H data md w)))
                  (file_name (fi_metadata (fileinfo (validate_upload H data md w))))
                  (content_type_or_default (fi_metadata (fileinfo (validate_upload H data md w)))))
      in Hdoc.
    assert (Hrec_eq : rec = mkFileRecord user_id (H data) (file_name md)
                              (content_type_or_default md)).
    { subst rec. unfold validate_upload. destruct (minio w !! H data); reflexivity. }
    destruct (if negb (duplicate (validate_upload H data md w))
              then upload_new_object_in no_faults app (fileinfo (validate_upload H data md w)) w
              else inl w) as [w3|[w3 r3]] eqn:Eb.
    2:{ (* the handler failed: no [HttpOk] *)
        exfalso. revert Eb Hdoc. unfold validate_upload.
        destruct (minio w !! H data); cbn; [discriminate|].
        unfold upload_new_object_in. cbn.
        destruct (embed_on app), (model_path_set app); cbn; congruence. }
    injection Hdoc as <- _.
    assert (Hu3 : user_files w3 = user_files w).
    { revert Eb. unfold validate_upload.
      destruct (minio w !! H data); cbn; [congruence|].
      unfold upload_new_object_in. cbn.
      destruct (embed_on app), (model_path_set app); cbn; intros E; try discriminate;
        injection E as <-; world_simpl; reflexivity. }
    rewrite Hrec_eq, fetch_user_file_insert by reflexivity.
    unfold fetch_user_file. rewrite Hu3. reflexivity. }
  unfold serve_file, unquote. rewrite Hpct, Hrec.
  destruct (fetch_user_file user_id (H data) w) as [r|].
  - rewrite Hdata. do 2 eexists. split; [reflexivity|]. discriminate.
  - rewrite Hdata. do 2 eexists. split; [reflexivity|].
    intros _. split; [apply or_octet_stream_default|reflexivity].
Qed.

Lemma upload_then_serve_witness :
  percent_free (length_digest [Byte.x61; Byte.x62]) = true /\
  (forall d, minio empty_world !! length_digest [Byte.x61; Byte.x62] = Some d ->
             d = [Byte.x61; Byte.x62]) /\
  upload_request length_digest (mkAppState false None) 1 [Byte.x61; Byte.x62]
    (mkFileMetadata "notes.txt" (Some "text/plain")) empty_world =
  (fst (upload_request length_digest (mkAppState false None) 1 [Byte.x61; Byte.x62]
          (mkFileMetadata "notes.txt" (Some "text/plain")) empty_world),
   (fst (snd (upload_request length_digest (mkAppState false None) 1 [Byte.x61; Byte.x62]
                (mkFileMetadata "notes.txt" (Some "text/plain")) empty_world)),
    HttpOk "File uploaded successfully" "2")) /\
  exists media_type filename,
    serve_file (fun s => s) (fun _ => "NoSuchKey") 1 "2"
      (fst (snd (upload_request length_digest (mkAppState false None) 1 [Byte.x61; Byte.x62]
                   (mkFileMetadata "notes.txt" (Some "text/plain")) empty_world))) =
      Streaming [Byte.x61; Byte.x62] media_type filename /\
    (fetch_user_file 1 "2" empty_world = None ->
     media_type = content_type_or_default (mkFileMetadata "notes.txt" (Some "text/plain")) /\
     filename = file_name (mkFileMetadata "notes.txt" (Some "text/plain"))).
Proof.
  assert (Hp : percent_free (length_digest [Byte.x61; Byte.x62]) = true) by reflexivity.
  assert (Ho : forall d, minio empty_world !! length_digest [Byte.x61; Byte.x62] = Some d ->
                         d = [Byte.x61; Byte.x62]).
  { intros d Hd. cbn in Hd. rewrite lookup_empty in Hd. discriminate. }
  assert (Hu : upload_request length_digest (mkAppState false None) 1 [Byte.x61; Byte.x62]
                 (mkFileMetadata "notes.txt" (Some "text/plain")) empty_world =
               (fst (upload_request length_digest (mkAppState false None) 1 [Byte.x61; Byte.x62]
                       (mkFileMetadata "notes.txt" (Some "text/plain")) empty_world),
                (fst (snd (upload_request length_digest (mkAppState false None) 1
                             [Byte.x61; Byte.x62]
                             (mkFileMetadata "notes.txt" (Some "text/plain")) empty_world)),
                 HttpOk "File uploaded successfully" "2"))).
  { vm_compute. reflexivity. }
  split; [exact Hp|]. split; [exact Ho|]. split; [exact Hu|].
  exact (upload_then_serve length_digest (fun s => s) (fun _ => "NoSuchKey")
           (mkAppState false None) 1 [Byte.x61; Byte.x62]
           (mkFileMetadata "notes.txt" (Some "text/plain")) empty_world _ _ _ _ Hp Ho Hu).
Defined.

(** [upload_document] on bytes whose owner already has a FileRecord for
    their digest leaves [user_files] unchanged ([ON CONFLICT (user_id,
    object_key) DO NOTHING]): the first file name and content type stay,
    whatever the new upload is called. *)
Theorem upload_keeps_existing_record H app user_id data md w :
  (exists r, In r (user_files w) /\ fr_user_id r = user_id /\ fr_object_key r = H data) ->
  user_files (fst (snd (upload_request H app user_id data md w))) = user_files w.
Proof.
  intros Hex.
  assert (Hf : fetch_user_file user_id (H data) w <> None).
  { intros F. apply fetch_user_file_exists in F. tauto. }
  assert (Hins : forall w3 r, fr_user_id r = user_id -> fr_object_key r = H data ->
                 user_files w3 = user_files w ->
                 user_files (insert_user_file r w3) = user_files w).
  { intros w3 r Hu Hk Hw3. unfold insert_user_file.
    destruct (existsb _ (user_files w3)) eqn:E; world_simpl; [exact Hw3|].
    exfalso. rewrite Hw3, Hu, Hk in E. apply find_none_existsb in E.
    unfold fetch_user_file in Hf. congruence. }
  unfold upload_request, upload_request_in, upload_document_in, validate_upload.
  destruct (minio w !! H data);
    cbn [fst snd negb duplicate fileinfo fi_file fi_file_length fi_object_key fi_metadata
         no_faults user_files_insert_error].
  - apply Hins; reflexivity.
  - unfold upload_new_object_in.
    cbn [fst snd negb duplicate fileinfo fi_file fi_file_length fi_object_key fi_metadata
         no_faults put_object_raises objects_insert_raises].
    destruct (embed_on app), (model_path_set app); cbn [fst snd]; try reflexivity;
      apply Hins; try reflexivity; world_simpl; reflexivity.
Qed.

Definition owned_world : World :=
  mkWorld {[ "2" := [Byte.x61; Byte.x62] ]} {[ "2" := mkObjectRow "text/plain" 2 ]}
    [mkFileRecord 1 "2" "notes.txt" "text/plain"] [] [] [].

Lemma upload_keeps_existing_record_witness :
  (exists r, In r (user_files owned_world) /\ fr_user_id r = 1%nat /\
             fr_object_key r = length_digest [Byte.x61; Byte.x62]) /\
  user_files (fst (snd (upload_request length_digest (mkAppState false None) 1
                          [Byte.x61; Byte.x62] (mkFileMetadata "renamed.txt" None)
                          owned_world))) = user_files owned_world.
Proof.
  assert (Hex : exists r, In r (user_files owned_world) /\ fr_user_id r = 1%nat /\
                          fr_object_key r = length_digest [Byte.x61; Byte.x62]).
  { exists (mkFileRecord 1 "2" "notes.txt" "text/plain"). cbn. tauto. }
  split; [exact Hex|].
  exact (upload_keeps_existing_record length_digest (mkAppState false None) 1
           [Byte.x61; Byte.x62] (mkFileMetadata "renamed.txt" None) owned_world Hex).
Defined.

(** With [embed_on] set and no model path, uploading new bytes answers
    500 "Model path not set in application state" after the object has
    been put in the bucket and its [objects] row inserted: the object stays
    stored with no FileRecord and no embedding task. *)
Theorem upload_without_model_path_leaves_object H app user_id data md w :
  embed_on app = true -> model_path_set app = false -> minio w !! H data = None ->
  let '(_, (w', r)) := upload_request H app user_id data md w in
  r = HttpError 500 "Model path not set in application state" /\
  minio w' !! H data = Some data /\
  objects w' !! H data = Some (mkObjectRow (content_type_or_default md) (length data)) /\
  user_files w' = user_files w /\ background_tasks w' = background_tasks w /\
  embeddings w' = embeddings w.
Proof.
  intros Hon Hoff Hnew. unfold upload_request, upload_request_in, upload_document_in, validate_upload.
  rewrite Hnew. cbn. unfold upload_new_object_in. cbn. rewrite Hon, Hoff.
  world_simpl. rewrite !lookup_insert_eq. repeat split.
Qed.

Lemma upload_without_model_path_leaves_object_witness :
  embed_on (mkAppState true None) = true /\ model_path_set (mkAppState true None) = false /\
  minio empty_world !! length_digest [Byte.x61; Byte.x62] = None /\
  (let '(_, (w', r)) := upload_request length_digest (mkAppState true None) 1
                          [Byte.x61; Byte.x62] (mkFileMetadata "notes.txt" None) empty_world in
   r = HttpError 500 "Model path not set in application state" /\
   minio w' !! length_digest [Byte.x61; Byte.x62] = Some [Byte.x61; Byte.x62] /\
   objects w' !! length_digest [Byte.x61; Byte.x62] =
     Some (mkObjectRow (content_type_or_default (mkFileMetadata "notes.txt" None))
             (length [Byte.x61; Byte.x62])) /\
   user_files w' = user_files empty_world /\
   background_tasks w' = background_tasks empty_world /\
   embeddings w' = embeddings empty_world).
Proof.
  assert (Hn : minio empty_world !! length_digest [Byte.x61; Byte.x62] = None)
    by (cbn; apply lookup_empty).
  split; [reflexivity|]. split; [reflexivity|]. split; [exact Hn|].
  exact (upload_without_model_path_leaves_object length_digest (mkAppState true None) 1
           [Byte.x61; Byte.x62] (mkFileMetadata "notes.txt" None) empty_world
           eq_refl eq_refl Hn).
Defined.

Lemma list_entries_complete (objs : gmap string ObjectRow) (rows : list FileRecord) :
  Forall (fun r => is_Some (objs !! fr_object_key r)) rows ->
  exists files, list_entries objs rows = Some files /\
    map (fun f => (lf_object_key f, lf_file_name f)) files =
      map (fun r => (fr_object_key r, fr_original_filename r)) rows /\
    Forall (fun f => objs !! lf_object_key f = Some (mkObjectRow (lf_content_type f) (lf_size f)))
      files.
Proof.
  induction rows as [|r rows IH]; intros Hall.
  - exists []. repeat split; constructor.
  - apply Forall_cons in Hall as [[o Ho] Hall].
    destruct (IH Hall) as (files & E & Hm & Hf).
    exists (mkListedFile (fr_object_key r) (fr_original_filename r)
              (obj_content_type o) (obj_size o) :: files).
    cbn. rewrite Ho, E. split; [reflexivity|]. split.
    + rewrite Hm. reflexivity.
    + constructor; [|exact Hf]. cbn. rewrite Ho. destruct o; reflexivity.
Qed.

Lemma list_entries_missing (objs : gmap string ObjectRow) (rows : list FileRecord) :
  Exists (fun r => objs !! fr_object_key r = None) rows -> list_entries objs rows = None.
Proof.
  induction rows as [|r rows IH]; intros Hex; [inversion Hex|].
  cbn. apply Exists_cons in Hex as [Hr|Hex].
  - rewrite Hr. reflexivity.
  - destruct (objs !! fr_object_key r); [|reflexivity]. rewrite (IH Hex). reflexivity.
Qed.

(** [temp_list_files]: when every FileRecord of the user has its
    [objects] row, the listing returns one entry per FileRecord of the
    user (object key and original file name, in some order), each with the
    content type and size of its [objects] row; when one of them has no
    row, [obj.object_key] raises and no listing is returned. *)
Theorem temp_list_files_outcomes user_id w out :
  temp_list_files user_id w out ->
  (Forall (fun r => is_Some (objects w !! fr_object_key r))
     (List.filter (fun r => Nat.eqb (fr_user_id r) user_id) (user_files w)) ->
   exists files, out = Some files /\
     Permutation (map (fun f => (lf_object_key f, lf_file_name f)) files)
       (map (fun r => (fr_object_key r, fr_original_filename r))
          (List.filter (fun r => Nat.eqb (fr_user_id r) user_id) (user_files w))) /\
     Forall (fun f => objects w !! lf_object_key f =
                      Some (mkObjectRow (lf_content_type f) (lf_size f))) files) /\
  ((exists r, In r (user_files w) /\ fr_user_id r = user_id /\
              objects w !! fr_object_key r = None) -> out = None).
Proof.
  intros Hl. destruct Hl as [rows Hperm]. split.
  - intros Hall.
    assert (Hrows : Forall (fun r => is_Some (objects w !! fr_object_key r)) rows).
    { apply List.Forall_forall. intros r Hr.
      apply (Permutation_in r (Permutation_sym Hperm)) in Hr.
      exact (proj1 (List.Forall_forall _ _) Hall r Hr). }
    destruct (list_entries_complete (objects w) rows Hrows) as (files & E & Hm & Hf).
    exists files. split; [exact E|]. split; [|exact Hf].
    rewrite Hm. apply Permutation_map, Permutation_sym, Hperm.
  - intros (r & Hr & Hu & Hno). apply list_entries_missing.
    apply List.Exists_exists. exists r. split; [|exact Hno].
    apply (Permutation_in r Hperm). apply filter_In. split; [exact Hr|].
    apply Nat.eqb_eq, Hu.
Qed.

Lemma temp_list_files_outcomes_witness :
  temp_list_files 1 owned_world
    (list_entries (objects owned_world)
       (List.filter (fun r => Nat.eqb (fr_user_id r) 1) (user_files owned_world))) /\
  ((Forall (fun r => is_Some (objects owned_world !! fr_object_key r))
      (List.filter (fun r => Nat.eqb (fr_user_id r) 1) (user_files owned_world)) ->
    exists files,
      list_entries (objects owned_world)
        (List.filter (fun r => Nat.eqb (fr_user_id r) 1) (user_files owned_world)) = Some files /\
      Permutation (map (fun f => (lf_object_key f, lf_file_name f)) files)
        (map (fun r => (fr_object_key r, fr_original_filename r))
           (List.filter (fun r => Nat.eqb (fr_user_id r) 1) (user_files owned_world))) /\
      Forall (fun f => objects owned_world !! lf_object_key f =
                       Some (mkObjectRow (lf_content_type f) (lf_size f))) files) /\
   ((exists r, In r (user_files owned_world) /\ fr_user_id r = 1%nat /\
               objects owned_world !! fr_object_key r = None) ->
    list_entries (objects owned_world)
      (List.filter (fun r => Nat.eqb (fr_user_id r) 1) (user_files owned_world)) = None)).
Proof.
  assert (Hl : temp_list_files 1 owned_world
                 (list_entries (objects owned_world)
                    (List.filter (fun r => Nat.eqb (fr_user_id r) 1) (user_files owned_world))))
    by (apply temp_list_files_rows; reflexivity).
  split; [exact Hl|].
  exact (temp_list_files_outcomes 1 owned_world _ Hl).
Defined.

(** The background job [process_document_embeddings] never writes:
    whatever the object and the embedding step give, the world afterwards
    is the world before, the [embeddings] table included. The job ends
    normally exactly when the object is stored, its text is embedded
    without error and there is no chunk or no vector; with at least one
    chunk and one vector it ends with the INSERT's refusal of the first
    vector. *)
Theorem process_document_embeddings_never_writes create_embeddings object_key w :
  let '(w', err) := process_document_embeddings create_embeddings object_key w in
  w' = w /\
  (err = None <->
   exists data chunks embs, minio w !! object_key = Some data /\
     create_embeddings data = Some (chunks, embs) /\ (chunks = [] \/ embs = [])) /\
  (forall data chunk chunks embedding embs,
     minio w !! object_key = Some data ->
     create_embeddings data = Some (chunk :: chunks, embedding :: embs) ->
     err = Some (VectorArgumentRefused embedding)).
Proof.
  unfold process_document_embeddings.
  destruct (minio w !! object_key) as [data|] eqn:Hm.
  - destruct (create_embeddings data) as [[chunks embs]|] eqn:He.
    + unfold save_embeddings_to_vectordb.
      destruct chunks as [|chunk chunks], embs as [|embedding embs]; cbn [zip];
        (split; [reflexivity|]); split.
      * split; [intros _|reflexivity].
        exists data, [], []. repeat split; auto.
      * intros d c cs e es Hd Hc. congruence.
      * split; [intros _|reflexivity].
        exists data, [], (embedding :: embs). repeat split; auto.
      * intros d c cs e es Hd Hc. congruence.
      * split; [intros _|reflexivity].
        exists data, (chunk :: chunks), []. repeat split; auto.
      * intros d c cs e es Hd Hc. congruence.
      * split; [discriminate|].
        intros (d & cs & es & Hd & Hc & [Hn|Hn]); congruence.
      * intros d c cs e es Hd Hc. congruence.
    + split; [reflexivity|]. split.
      * split; [discriminate|]. intros (d & cs & es & Hd & Hc & _). congruence.
      * intros d c cs e es Hd Hc. congruence.
  - split; [reflexivity|]. split.
    + split; [discriminate|]. intros (d & cs & es & Hd & _). congruence.
    + intros d c cs e es Hd. congruence.
Qed.

(* ===================================================================== *)
(** ** The embedding model cache                                         *)
(* ===================================================================== *)

Lemma split_on_no_sep (sep : Ascii.ascii) (s : string) :
  existsb (Ascii.eqb sep) (String.list_ascii_of_string s) = false -> split_on sep s = [s].
Proof.
  induction s as [|c s IH]; cbn; [reflexivity|].
  intros Hno. apply orb_false_iff in Hno as [Hc Hno].
  rewrite (IH Hno). rewrite Ascii.eqb_sym, Hc. reflexivity.
Qed.

Section ModelCacheFacts.

Variable MODEL_CACHE_DIR : string.
Variable local_dir_nonempty : string -> Outcome bool.
Variable makedirs : string -> Outcome unit.
Variable list_objects : string -> string -> Outcome (list string).
Variable fget_object : string -> string -> string -> Outcome unit.
Variable snapshot_download : string -> string -> Outcome unit.
Variable upload_local_directory : string -> string -> string -> Outcome unit.
Variable unpack_error : nat -> string.

Lemma download_bad_name_no_access bucket_name full_model_name revision :
  existsb (Ascii.eqb slash) (String.list_ascii_of_string full_model_name) = false ->
  download_model_from_minio MODEL_CACHE_DIR makedirs list_objects fget_object
    bucket_name full_model_name revision = ([], Throws list_index_error).
Proof.
  intros Hno. unfold download_model_from_minio. rewrite split_on_no_sep by exact Hno.
  reflexivity.
Qed.

(** [ensure_model_is_ready] with the model found in MinIO: when the local
    cache is empty and [hf-models] lists objects under the model's prefix,
    the call [download_model_from_minio(minio_client, full_model_name,
    revision, full_model_local_path)] passes the revision as the model
    name; a revision without ['/'] (a commit hash, or the default
    ["latest"]) makes [tmp[1]] raise, so the request fails with 500
    "Failed to prepare model: list index out of range" after the listing
    alone, without downloading any object. *)
Theorem ensure_model_minio_cache_fails full_model_name revision user_name model_name
    first_object more_objects :
  split_on slash full_model_name = [user_name; model_name] ->
  local_dir_nonempty (path_join MODEL_CACHE_DIR
                        [model_path_name user_name model_name; "snapshots"; revision]) =
    Returns false ->
  list_objects MODELS_BUCKET (model_path_name user_name model_name +:+ "/snapshots/" +:+ revision) =
    Returns (first_object :: more_objects) ->
  existsb (Ascii.eqb slash) (String.list_ascii_of_string revision) = false ->
  ensure_model_is_ready MODEL_CACHE_DIR local_dir_nonempty makedirs list_objects
    fget_object snapshot_download upload_local_directory unpack_error full_model_name revision =
  ([ListObjects MODELS_BUCKET (model_path_name user_name model_name +:+ "/snapshots/" +:+ revision)],
   PrepareFailed 500 ("Failed to prepare model: " +:+ "list index out of range")).
Proof.
  intros Hsplit Hlocal Hlist Hrev. unfold ensure_model_is_ready.
  rewrite Hsplit, Hlocal, Hlist. cbv zeta.
  rewrite download_bad_name_no_access by exact Hrev. reflexivity.
Qed.

(** [ensure_model_is_ready] with a revision without ['/']: it never
    downloads an object from MinIO, and when it returns a path, that path
    is [MODEL_CACHE_DIR/models--{user}--{model}/snapshots/{revision}] for a
    model name of exactly two parts [user/model]; any other model name
    fails with status 500 before any storage access. *)
Theorem ensure_model_never_fetches_from_minio full_model_name revision :
  existsb (Ascii.eqb slash) (String.list_ascii_of_string revision) = false ->
  let '(log, r) :=
    ensure_model_is_ready MODEL_CACHE_DIR local_dir_nonempty makedirs list_objects
    fget_object snapshot_download upload_local_directory unpack_error
      full_model_name revision in
  (forall bucket name path, ~ In (FGetObject bucket name path) log) /\
  (forall p, r = Prepared p ->
   exists user_name model_name, split_on slash full_model_name = [user_name; model_name] /\
     p = path_join MODEL_CACHE_DIR [model_path_name user_name model_name; "snapshots"; revision]) /\
  (length (split_on slash full_model_name) <> 2%nat ->
   log = [] /\ r = PrepareFailed 500 ("Failed to prepare model: " +:+
                                    unpack_error (length (split_on slash full_model_name)))).
Proof.
  intros Hrev. unfold ensure_model_is_ready.
  destruct (split_on slash full_model_name) as [|u [|m [|x rest]]] eqn:Hsplit;
    try (cbn; split; [intros ? ? ? []|split; [intros p Hp; discriminate|tauto]]).
  cbv zeta.
  destruct (local_dir_nonempty _) as [[|]|e].
  - split; [intros ? ? ? []|]. split; [|cbn; lia].
    intros p [= <-]. exists u, m. split; reflexivity.
  - destruct (list_objects MODELS_BUCKET _) as [[|o os]|e].
    + unfold upload_model_to_minio. rewrite Hsplit. cbv zeta.
      destruct (snapshot_download full_model_name revision).
      * destruct (upload_local_directory _ _ _); cbn.
        -- split; [intros ? ? ? [H|[H|[H|[]]]]; discriminate|]. split; [|lia].
           intros p [= <-]. exists u, m. split; reflexivity.
        -- split; [intros ? ? ? [H|[H|[H|[]]]]; discriminate|]. split; [discriminate|lia].
      * cbn. split; [intros ? ? ? [H|[H|[]]]; discriminate|]. split; [discriminate|lia].
    + rewrite download_bad_name_no_access by exact Hrev. cbn.
      split; [intros ? ? ? [H|[]]; discriminate|]. split; [discriminate|lia].
    + cbn. split; [intros ? ? ? [H|[]]; discriminate|]. split; [discriminate|lia].
  - cbn. split; [intros ? ? ? []|]. split; [discriminate|lia].
Qed.

End ModelCacheFacts.

Lemma ensure_model_minio_cache_fails_witness :
  split_on slash "intfloat/multilingual-e5-small" = ["intfloat"; "multilingual-e5-small"] /\
  (fun _ : string => @Returns bool false)
    (path_join "/tmp/hf-models"
       [model_path_name "intfloat" "multilingual-e5-small"; "snapshots"; "latest"]) =
    Returns false /\
  (fun _ _ : string => Returns ["models--intfloat--multilingual-e5-small/snapshots/latest/config.json"])
    MODELS_BUCKET (model_path_name "intfloat" "multilingual-e5-small" +:+ "/snapshots/" +:+ "latest") =
    Returns ("models--intfloat--multilingual-e5-small/snapshots/latest/config.json" :: []) /\
  existsb (Ascii.eqb slash) (String.list_ascii_of_string "latest") = false /\
  ensure_model_is_ready "/tmp/hf-models" (fun _ => Returns false) (fun _ => Returns tt)
    (fun _ _ => Returns ["models--intfloat--multilingual-e5-small/snapshots/latest/config.json"])
    (fun _ _ _ => Returns tt) (fun _ _ => Returns tt) (fun _ _ _ => Returns tt)
    (fun _ => "too many values to unpack (expected 2)")
    "intfloat/multilingual-e5-small" "latest" =
  ([ListObjects MODELS_BUCKET
      (model_path_name "intfloat" "multilingual-e5-small" +:+ "/snapshots/" +:+ "latest")],
   PrepareFailed 500 ("Failed to prepare model: " +:+ "list index out of range")).
Proof.
  split; [reflexivity|]. split; [reflexivity|]. split; [reflexivity|].
  split; [reflexivity|].
  apply (ensure_model_minio_cache_fails "/tmp/hf-models" (fun _ => Returns false)
           (fun _ => Returns tt)
           (fun _ _ => Returns ["models--intfloat--multilingual-e5-small/snapshots/latest/config.json"])
           (fun _ _ _ => Returns tt) (fun _ _ => Returns tt) (fun _ _ _ => Returns tt)
           (fun _ => "too many values to unpack (expected 2)")
           "intfloat/multilingual-e5-small" "latest" "intfloat" "multilingual-e5-small"
           "models--intfloat--multilingual-e5-small/snapshots/latest/config.json" []);
    reflexivity.
Defined.

Lemma ensure_model_never_fetches_from_minio_witness :
  existsb (Ascii.eqb slash) (String.list_ascii_of_string "latest") = false /\
  let '(log, r) :=
    ensure_model_is_ready "/tmp/hf-models" (fun _ => Returns false) (fun _ => Returns tt)
      (fun _ _ => Returns ["models--intfloat--multilingual-e5-small/snapshots/latest/config.json"])
      (fun _ _ _ => Returns tt) (fun _ _ => Returns tt) (fun _ _ _ => Returns tt)
      (fun _ => "too many values to unpack (expected 2)")
      "intfloat/multilingual-e5-small" "latest" in
  (forall bucket name path, ~ In (FGetObject bucket name path) log) /\
  (forall p, r = Prepared p ->
   exists user_name model_name,
     split_on slash "intfloat/multilingual-e5-small" = [user_name; model_name] /\
     p = path_join "/tmp/hf-models"
           [model_path_name user_name model_name; "snapshots"; "latest"]) /\
  (length (split_on slash "intfloat/multilingual-e5-small") <> 2%nat ->
   log = [] /\ r = PrepareFailed 500 ("Failed to prepare model: " +:+
                    (fun _ => "too many values to unpack (expected 2)")
                      (length (split_on slash "intfloat/multilingual-e5-small")))).
Proof.
  split; [reflexivity|].
  exact (ensure_model_never_fetches_from_minio "/tmp/hf-models" (fun _ => Returns false)
           (fun _ => Returns tt)
           (fun _ _ => Returns ["models--intfloat--multilingual-e5-small/snapshots/latest/config.json"])
           (fun _ _ _ => Returns tt) (fun _ _ => Returns tt) (fun _ _ _ => Returns tt)
           (fun _ => "too many values to unpack (expected 2)")
           "intfloat/multilingual-e5-small" "latest" eq_refl).
Defined.

(* ===================================================================== *)
(** ** The search and the orchestrator's sources                         *)
(* ===================================================================== *)

Lemma Qle_bool_total (x y : Q) : Qle_bool x y = false -> Qle_bool y x = true.
Proof.
  intros H. apply Qle_bool_iff. apply Qlt_le_weak, Qnot_le_lt.
  intros Hle. apply Qle_bool_iff in Hle. congruence.
Qed.

Lemma insert_desc_perm cd q (c : Chunk) (l : list Chunk) :
  Permutation (c :: l) (insert_desc cd q c l).
Proof.
  induction l as [|d l IH]; cbn; [reflexivity|].
  destruct (Qle_bool _ _); [reflexivity|].
  etransitivity; [apply perm_swap|]. apply perm_skip, IH.
Qed.

Lemma insert_desc_sorted cd q (c : Chunk) (l : list Chunk) :
  Sorted (desc_by_similarity cd q) l -> Sorted (desc_by_similarity cd q) (insert_desc cd q c l).
Proof.
  induction l as [|d l IH]; intros Hs; cbn.
  - repeat constructor.
  - destruct (Qle_bool (similarity cd q d) (similarity cd q c)) eqn:E.
    + constructor; [exact Hs|]. constructor. exact E.
    + apply Sorted_inv in Hs as [Hl Hd]. constructor; [apply IH, Hl|].
      destruct l as [|e l]; cbn.
      * constructor. apply Qle_bool_total, E.
      * destruct (Qle_bool (similarity cd q e) (similarity cd q c)).
        -- constructor. apply Qle_bool_total, E.
        -- apply HdRel_inv in Hd. constructor. exact Hd.
Qed.

Lemma order_by_similarity_desc_spec cd q (l : list Chunk) :
  Permutation l (order_by_similarity_desc cd q l) /\
  Sorted (desc_by_similarity cd q) (order_by_similarity_desc cd q l).
Proof.
  induction l as [|c l [Hp Hs]]; cbn; [split; constructor|].
  split.
  - etransitivity; [apply perm_skip, Hp|apply insert_desc_perm].
  - apply insert_desc_sorted, Hs.
Qed.

(** The executable search picks one of the orders the database may use. *)
Lemma search_exec_admissible cd table q keys limit thr :
  search_similar_chunks_by_objects cd table q keys limit thr
    (search_exec cd table q keys limit thr).
Proof.
  unfold search_exec. destruct (Z.ltb_spec limit 0) as [Hlt|Hge].
  - apply search_negative_limit, Hlt.
  - destruct (order_by_similarity_desc_spec cd q
                (List.filter (where_clause cd q keys thr) table)) as [Hp Hs].
    apply search_rows; assumption.
Qed.

Lemma Sorted_firstn {A} (R : A -> A -> Prop) (n : nat) (l : list A) :
  Sorted R l -> Sorted R (firstn n l).
Proof.
  revert l. induction n as [|n IH]; intros l Hs; [constructor|].
  destruct l as [|a l]; [constructor|]. cbn.
  apply Sorted_inv in Hs as [Hl Ha]. constructor; [apply IH, Hl|].
  destruct n as [|n]; [constructor|]. destruct l as [|b l]; [constructor|].
  apply HdRel_inv in Ha. constructor. exact Ha.
Qed.

Lemma Sorted_map {A B} (R : B -> B -> Prop) (f : A -> B) (l : list A) :
  Sorted (fun a b => R (f a) (f b)) l -> Sorted R (map f l).
Proof.
  induction l as [|a l IH]; intros Hs; cbn; [constructor|].
  apply Sorted_inv in Hs as [Hl Ha]. constructor; [apply IH, Hl|].
  destruct l as [|b l]; cbn; [constructor|]. apply HdRel_inv in Ha. constructor. exact Ha.
Qed.

Lemma Sorted_impl {A} (R S : A -> A -> Prop) (l : list A) :
  (forall a b, R a b -> S a b) -> Sorted R l -> Sorted S l.
Proof.
  intros HRS. induction 1 as [|a l Hl IH Ha]; constructor; [exact IH|].
  destruct Ha; constructor. apply HRS. assumption.
Qed.

(** [search_similar_chunks_by_objects]: the rows returned are the first
    [limit] of the selected chunks (or all of them when there are fewer),
    every row's similarity is strictly above the threshold, and the rows
    come in non-increasing order of similarity. *)
Theorem search_rows_ordered_above_threshold cd table q keys limit thr rows :
  search_similar_chunks_by_objects cd table q keys limit thr (Fetched rows) ->
  length rows = Nat.min (Z.to_nat limit) (length (List.filter (where_clause cd q keys thr) table)) /\
  Forall (fun r => thr < row_similarity r) rows /\
  Sorted (fun a b => row_similarity b <= row_similarity a) rows.
Proof.
  intros Hs. inversion Hs as [|ordered Hlim Hperm Hsorted]; subst.
  split; [|split].
  - rewrite length_map, length_firstn, (Permutation_length Hperm). reflexivity.
  - apply List.Forall_map. apply List.Forall_forall. intros c Hc.
    apply firstn_incl_chunk in Hc.
    apply (Permutation_in c (Permutation_sym Hperm)) in Hc.
    apply filter_In in Hc as [_ Hw]. unfold where_clause in Hw.
    apply andb_true_iff in Hw as [_ Hw]. apply negb_true_iff in Hw.
    cbn [row_similarity to_row]. apply Qnot_le_lt. intros Hle.
    apply Qle_bool_iff in Hle. congruence.
  - apply Sorted_map. apply Sorted_firstn.
    eapply Sorted_impl; [|exact Hsorted]. intros a b Hab.
    apply Qle_bool_iff, Hab.
Qed.

Definition example_table : list Chunk :=
  [mkChunk "a" [1; 0] "alpha"; mkChunk "b" [0; 1] "beta"; mkChunk "a" [3 # 5; 4 # 5] "gamma";
   mkChunk "a" [4 # 5; 3 # 5] "delta"].

Definition fetched_rows (o : FetchOutcome) : list SearchRow :=
  match o with Fetched rows => rows | Raised _ => [] end.

Lemma search_rows_ordered_above_threshold_witness :
  search_similar_chunks_by_objects unit_cosine_distance example_table [1; 0] ["a"] 1 (7 # 10)
    (Fetched (fetched_rows (search_exec unit_cosine_distance example_table [1; 0] ["a"] 1 (7 # 10)))) /\
  (let rows := fetched_rows (search_exec unit_cosine_distance example_table [1; 0] ["a"] 1 (7 # 10)) in
   length rows = Nat.min (Z.to_nat 1)
     (length (List.filter (where_clause unit_cosine_distance [1; 0] ["a"] (7 # 10)) example_table)) /\
   Forall (fun r => 7 # 10 < row_similarity r) rows /\
   Sorted (fun a b => row_similarity b <= row_similarity a) rows).
Proof.
  assert (Hs : search_similar_chunks_by_objects unit_cosine_distance example_table [1; 0] ["a"] 1
                 (7 # 10)
                 (Fetched (fetched_rows (search_exec unit_cosine_distance example_table [1; 0]
                                           ["a"] 1 (7 # 10))))).
  { assert (E : search_exec unit_cosine_distance example_table [1; 0] ["a"] 1 (7 # 10) =
                Fetched (fetched_rows (search_exec unit_cosine_distance example_table [1; 0]
                                         ["a"] 1 (7 # 10)))) by (vm_compute; reflexivity).
    rewrite <- E. apply search_exec_admissible. }
  split; [exact Hs|].
  exact (search_rows_ordered_above_threshold unit_cosine_distance example_table [1; 0] ["a"] 1
           (7 # 10) _ Hs).
Defined.

(** A postcondition of a computation that completes normally. *)
Definition rag_post {A} (P : A -> Prop) (m : RagM A) : Prop :=
  forall log log' a, m log = (log', Returns a) -> P a.

Lemma rag_post_ret {A} (P : A -> Prop) (a : A) : P a -> rag_post P (rag_ret a).
Proof. intros Ha log log' b E. injection E as _ <-. exact Ha. Qed.

Lemma rag_post_raise {A} (P : A -> Prop) (e : string) : rag_post P (rag_raise e).
Proof. intros log log' b E. discriminate. Qed.

Lemma rag_post_true {A} (m : RagM A) : rag_post (fun _ => True) m.
Proof. intros log log' b _. exact I. Qed.

Lemma rag_post_bind {A B} (Q : A -> Prop) (P : B -> Prop) (m : RagM A) (f : A -> RagM B) :
  rag_post Q m -> (forall a, Q a -> rag_post P (f a)) -> rag_post P (rag_bind m f).
Proof.
  intros Hm Hf log log' b E. unfold rag_bind in E.
  destruct (m log) as [log1 [a|e]] eqn:Em; [|discriminate].
  exact (Hf a (Hm _ _ _ Em) _ _ _ E).
Qed.

Lemma rag_post_mapM {A B} (R : A -> B -> Prop) (f : A -> RagM B) (l : list A) :
  (forall x, rag_post (R x) (f x)) -> rag_post (Forall2 R l) (rag_mapM f l).
Proof.
  intros Hf. induction l as [|x l IH]; cbn [rag_mapM].
  - apply rag_post_ret. constructor.
  - apply (rag_post_bind (R x)); [apply Hf|]. intros y Hy.
    apply (rag_post_bind (Forall2 R l)); [exact IH|]. intros ys Hys.
    apply rag_post_ret. constructor; assumption.
Qed.

Lemma order_by_similarity_desc_In cd q (l : list Chunk) (c : Chunk) :
  In c (order_by_similarity_desc cd q l) -> In c l.
Proof.
  intros Hc. apply (Permutation_in c (Permutation_sym (proj1 (order_by_similarity_desc_spec cd q l)))).
  exact Hc.
Qed.

Lemma retrieve_relevant_chunks_post cd table query_embedding object_keys :
  rag_post (fun rows => (length rows <= 5)%nat /\
                        Forall (fun r => In (row_object_key r) object_keys) rows)
    (retrieve_relevant_chunks cd table query_embedding object_keys).
Proof.
  unfold retrieve_relevant_chunks.
  apply (rag_post_bind (fun _ => True)); [apply rag_post_true|]. intros _ _.
  unfold search_exec. cbn [Z.ltb Z.compare]. apply rag_post_ret. split.
  - rewrite length_map. apply firstn_le_length.
  - apply List.Forall_map. apply List.Forall_forall. intros c Hc.
    apply firstn_incl_chunk, order_by_similarity_desc_In in Hc.
    apply filter_In in Hc as [_ Hw]. unfold where_clause in Hw.
    apply andb_true_iff in Hw as [Hk _]. apply key_in_any_In, Hk.
Qed.

Lemma source_of_chunk_post fetch (chunk : SearchRow) :
  rag_post (fun s => src_object_key s = row_object_key chunk) (source_of_chunk fetch chunk).
Proof.
  unfold source_of_chunk.
  apply (rag_post_bind (fun _ => True)); [apply rag_post_true|]. intros _ _.
  destruct (fetch (row_object_key chunk)); [apply rag_post_ret; reflexivity|apply rag_post_raise].
Qed.

(** [create_rag_response]: it returns at most five sources, and each
    source's object key is one of the [object_keys] of the request,
    whatever the models and the table hold. *)
Theorem rag_sources_within_keys cd SYSTEM_PROMPT table decision embed fetch final query
    object_keys :
  let sources := snd (fst (create_rag_response cd SYSTEM_PROMPT table decision embed fetch
                             final query object_keys)) in
  (length sources <= 5)%nat /\ Forall (fun s => In (src_object_key s) object_keys) sources.
Proof.
  set (Good := fun sources : list Source =>
         (length sources <= 5)%nat /\ Forall (fun s => In (src_object_key s) object_keys) sources).
  assert (Hpost : rag_post (fun r => Good (snd r))
                    (rag_body cd SYSTEM_PROMPT table decision embed fetch final query object_keys)).
  { unfold rag_body.
    apply (rag_post_bind (fun _ => True)); [apply rag_post_true|]. intros tool_calls _.
    apply (rag_post_bind (fun r => Good (fst r))).
    - destruct tool_calls.
      + apply (rag_post_bind (fun _ => True)); [apply rag_post_true|]. intros qe _.
        apply (rag_post_bind _ _ _ _ (retrieve_relevant_chunks_post cd table qe object_keys)).
        intros rows [Hlen Hkeys].
        apply (rag_post_bind (Forall2 (fun r s => src_object_key s = row_object_key r) rows)).
        * apply rag_post_mapM. intros r. apply source_of_chunk_post.
        * intros sources Hs. apply rag_post_ret. cbn [fst]. split.
          -- assert (Hl : length rows = length sources)
               by (clear -Hs; induction Hs; cbn; congruence).
             rewrite <- Hl. exact Hlen.
          -- clear Hlen. induction Hs as [|r s rows sources Hrs Hs IH]; constructor.
             ++ rewrite Hrs. apply Forall_inv in Hkeys. exact Hkeys.
             ++ apply IH. apply Forall_inv_tail in Hkeys. exact Hkeys.
      + apply rag_post_ret. cbn. split; [cbn; lia|constructor].
    - intros [sources messages'] Hgood. cbn [fst] in Hgood.
      apply (rag_post_bind (fun _ => True)); [apply rag_post_true|]. intros result _.
      destruct result as [text|]; [apply rag_post_ret; exact Hgood|apply rag_post_raise]. }
  cbv zeta. unfold create_rag_response.
  destruct (rag_body cd SYSTEM_PROMPT table decision embed fetch final query object_keys [])
    as [log [r|e]] eqn:E.
  - exact (Hpost _ _ _ E).
  - cbn. split; [lia|constructor].
Qed.

(** [create_rag_response] when the first completion elects no tool call:
    no query embedding, no index query and no file-name query are made;
    the final completion gets the two initial messages and the answer
    comes with no sources. *)
Theorem rag_without_tool_call_no_retrieval cd SYSTEM_PROMPT table decision embed fetch final
    query object_keys :
  decision (initial_messages SYSTEM_PROMPT query) = Returns false ->
  create_rag_response cd SYSTEM_PROMPT table decision embed fetch final query object_keys =
  match final (initial_messages SYSTEM_PROMPT query) with
  | Returns (Some text) =>
      ((text, []), [ModelCall DecisionCompletion false; ModelCall FinalCompletion false])
  | Returns None =>
      ((error_marker +:+ "'NoneType' object is not subscriptable", []),
       [ModelCall DecisionCompletion false; ModelCall FinalCompletion false])
  | Throws e =>
      ((error_marker +:+ e, []), [ModelCall DecisionCompletion false; ModelCall FinalCompletion true])
  end.
Proof.
  intros Hd. unfold create_rag_response, rag_body. rewrite Hd.
  unfold model_call, rag_emit, rag_ret, rag_raise, rag_bind; cbv beta iota zeta.
  destruct (final (initial_messages SYSTEM_PROMPT query)) as [[text|]|e]; reflexivity.
Qed.

Lemma rag_without_tool_call_no_retrieval_witness :
  (fun _ : list Message => Returns false) (initial_messages "You are helpful." "hello") =
    Returns false /\
  create_rag_response unit_cosine_distance "You are helpful." example_table
    (fun _ => Returns false) (fun _ => Returns [1; 0]) (fun _ => Some "manual.pdf")
    (fun _ => Returns (Some "Hello! How can I help?")) "hello" ["a"] =
  match (fun _ : list Message => @Returns (option string) (Some "Hello! How can I help?"))
          (initial_messages "You are helpful." "hello") with
  | Returns (Some text) =>
      ((text, []), [ModelCall DecisionCompletion false; ModelCall FinalCompletion false])
  | Returns None =>
      ((error_marker +:+ "'NoneType' object is not subscriptable", []),
       [ModelCall DecisionCompletion false; ModelCall FinalCompletion false])
  | Throws e =>
      ((error_marker +:+ e, []), [ModelCall DecisionCompletion false; ModelCall FinalCompletion true])
  end.
Proof.
  split; [reflexivity|].
  apply (rag_without_tool_call_no_retrieval unit_cosine_distance "You are helpful." example_table
           (fun _ => Returns false) (fun _ => Returns [1; 0]) (fun _ => Some "manual.pdf")
           (fun _ => Returns (Some "Hello! How can I help?")) "hello" ["a"]).
  reflexivity.
Defined.

Lemma rag_bind_returns {A B} (m : RagM A) (f : A -> RagM B) log log' a :
  m log = (log', Returns a) -> rag_bind m f log = f a log'.
Proof. intros E. unfold rag_bind. rewrite E. reflexivity. Qed.

Lemma rag_bind_throws {A B} (m : RagM A) (f : A -> RagM B) log log' e :
  m log = (log', Throws e) -> rag_bind m f log = (log', Throws e).
Proof. intros E. unfold rag_bind. rewrite E. reflexivity. Qed.

Lemma mapM_source_of_chunk_raises fetch (rows : list SearchRow) log :
  Exists (fun r => fetch (row_object_key r) = None) rows ->
  exists keys, rag_mapM (source_of_chunk fetch) rows log =
    (log ++ map FilenameQuery keys, Throws "'NoneType' object is not subscriptable").
Proof.
  revert log. induction rows as [|r rows IH]; intros log Hex; [inversion Hex|].
  cbn [rag_mapM]. unfold rag_bind at 1, source_of_chunk at 1.
  unfold rag_bind at 1, rag_emit at 1.
  destruct (fetch (row_object_key r)) as [fname|] eqn:Ef.
  - apply Exists_cons in Hex as [Hr|Hex]; [congruence|].
    destruct (IH (log ++ [FilenameQuery (row_object_key r)]) Hex) as (ks & Eks).
    exists (row_object_key r :: ks). cbv beta iota delta [rag_ret].
    unfold rag_bind at 1. rewrite Eks. cbv beta iota.
    rewrite <- app_assoc. reflexivity.
  - exists [row_object_key r]. reflexivity.
Qed.

(** [create_rag_response] when a retrieved chunk's key has no
    [user_files] row: [file_name["original_filename"]] raises, the final
    completion is never called, and the answer is the error text with no
    sources. *)
Theorem rag_missing_filename_gives_error cd SYSTEM_PROMPT table decision embed fetch final
    query object_keys query_embedding :
  decision (initial_messages SYSTEM_PROMPT query) = Returns true ->
  embed query = Returns query_embedding ->
  Exists (fun r => fetch (row_object_key r) = None)
    (fetched_rows (search_exec cd table query_embedding object_keys 5 (7 # 10))) ->
  let '((answer, sources), log) :=
    create_rag_response cd SYSTEM_PROMPT table decision embed fetch final query object_keys in
  answer = error_marker +:+ "'NoneType' object is not subscriptable" /\ sources = [] /\
  (forall raised, ~ In (ModelCall FinalCompletion raised) log).
Proof.
  intros Hd He Hex.
  set (rows := fetched_rows (search_exec cd table query_embedding object_keys 5 (7 # 10))) in Hex.
  assert (Hr : forall log, retrieve_relevant_chunks cd table query_embedding object_keys log =
                           (log ++ [IndexQuery object_keys], Returns rows)).
  { intros log. reflexivity. }
  destruct (mapM_source_of_chunk_raises fetch rows
              ([ModelCall DecisionCompletion false; ModelCall QueryEmbedding false]
               ++ [IndexQuery object_keys]) Hex) as (ks & Eks).
  unfold create_rag_response, rag_body.
  rewrite (rag_bind_returns (model_call DecisionCompletion
                               (decision (initial_messages SYSTEM_PROMPT query))) _ []
             [ModelCall DecisionCompletion false] true)
    by (unfold model_call; rewrite Hd; reflexivity).
  cbv beta iota.
  erewrite rag_bind_throws; cycle 1.
  { rewrite (rag_bind_returns (model_call QueryEmbedding (embed query)) _ _
               [ModelCall DecisionCompletion false; ModelCall QueryEmbedding false]
               query_embedding)
      by (unfold model_call; rewrite He; reflexivity).
    rewrite (rag_bind_returns (retrieve_relevant_chunks cd table query_embedding object_keys) _ _
               ([ModelCall DecisionCompletion false; ModelCall QueryEmbedding false]
                ++ [IndexQuery object_keys]) rows) by apply Hr.
    rewrite (rag_bind_throws (rag_mapM (source_of_chunk fetch) rows) _ _ _ _ Eks).
    reflexivity. }
  cbv beta iota.
  split; [reflexivity|]. split; [reflexivity|].
  intros raised Hin. cbn in Hin.
  destruct Hin as [Hin|[Hin|[Hin|Hin]]]; try discriminate.
  apply in_map_iff in Hin as (k & Hk & _). discriminate.
Qed.

Lemma rag_missing_filename_gives_error_witness :
  (fun _ : list Message => Returns true) (initial_messages "You are helpful." "brake pads") =
    Returns true /\
  (fun _ : string => @Returns (list Q) [1; 0]) "brake pads" = Returns [1; 0] /\
  Exists (fun r => (fun _ : string => @None string) (row_object_key r) = None)
    (fetched_rows (search_exec unit_cosine_distance example_table [1; 0] ["a"] 5 (7 # 10))) /\
  (let '((answer, sources), log) :=
     create_rag_response unit_cosine_distance "You are helpful." example_table
       (fun _ => Returns true) (fun _ => Returns [1; 0]) (fun _ => None)
       (fun _ => Returns (Some "Replace the pads.")) "brake pads" ["a"] in
   answer = error_marker +:+ "'NoneType' object is not subscriptable" /\ sources = [] /\
   (forall raised, ~ In (ModelCall FinalCompletion raised) log)).
Proof.
  assert (Hex : Exists (fun r => (fun _ : string => @None string) (row_object_key r) = None)
                  (fetched_rows (search_exec unit_cosine_distance example_table [1; 0] ["a"] 5
                                   (7 # 10)))).
  { vm_compute. apply Exists_cons_hd. reflexivity. }
  split; [reflexivity|]. split; [reflexivity|]. split; [exact Hex|].
  exact (rag_missing_filename_gives_error unit_cosine_distance "You are helpful." example_table
           (fun _ => Returns true) (fun _ => Returns [1; 0]) (fun _ => None)
           (fun _ => Returns (Some "Replace the pads.")) "brake pads" ["a"] [1; 0]
           eq_refl eq_refl Hex).
Defined.
